(** * Train destination alarm: the proximity alarm engine and its bridge

    A shallow embedding of the JavaScript sources of the train-tracking
    application: the distance engine and the alarm rule ([distanceCalc.js]),
    the live and the simulated position hook, the notifications of the
    service worker ([sw.js]), and the train and demo routes of the Express
    bridge ([index.js] and the train router).

    Numbers.  A JavaScript number is an IEEE-754 double.  The embedding keeps
    the three non-finite values apart and takes a finite number to be a real:
    comparisons, [null]/[undefined] checks, truthiness and the propagation of
    [NaN] and [Infinity] are those of the language, while arithmetic on
    finite numbers is exact (rounding to 53 bits is not part of the model,
    and there is one zero).  The claims are stated with that in mind:
    where the rounding of the machine can change a result (a sum that
    passes 1 by a rounding, a product that lands on a half, an
    interpolation that misses its end by a digit) the statement leaves
    room for it, with a tolerance or with [NaN] as a possible result, and
    says so. *)

From Stdlib Require Import Reals Lra Lia ZArith List String Ascii Bool.
From Stdlib Require Import Zfloor DecimalString.
Import ListNotations.

Set Warnings "-register-all".
Open Scope R_scope.

(** ** JavaScript numbers and values *)

Module JS.

Inductive number : Type :=
| Fin (r : R)
| PosInf
| NegInf
| NaN.

(** A value that a coordinate field or an optional argument may hold. *)
Inductive value : Type :=
| Undefined
| Null
| Num (n : number).

Definition Rleb (a b : R) : bool := if Rle_dec a b then true else false.
Definition Rltb (a b : R) : bool := if Rlt_dec a b then true else false.
Definition Reqb (a b : R) : bool := if Req_dec_T a b then true else false.

(** [x <= y] on numbers: false as soon as one side is [NaN]. *)
Definition le (x y : number) : bool :=
  match x, y with
  | NaN, _ | _, NaN => false
  | NegInf, _ => true
  | _, PosInf => true
  | Fin a, Fin b => Rleb a b
  | _, _ => false
  end.

(** [x < y] on numbers. *)
Definition lt (x y : number) : bool :=
  match x, y with
  | NaN, _ | _, NaN => false
  | PosInf, _ => false
  | _, NegInf => false
  | Fin a, Fin b => Rltb a b
  | _, _ => true
  end.

(** [x === y] on numbers. *)
Definition strict_eq (x y : number) : bool :=
  match x, y with
  | Fin a, Fin b => Reqb a b
  | PosInf, PosInf => true
  | NegInf, NegInf => true
  | _, _ => false
  end.

Definition isNaN (x : number) : bool :=
  match x with NaN => true | _ => false end.

(** [v == null]: true of [null] and of [undefined] only. *)
Definition eq_null (v : value) : bool :=
  match v with Undefined | Null => true | Num _ => false end.

(** [ToNumber] on the values above. *)
Definition ToNumber (v : value) : number :=
  match v with
  | Undefined => NaN
  | Null => Fin 0
  | Num n => n
  end.

(** [ToBoolean]: [undefined], [null], [0] and [NaN] are falsy. *)
Definition truthy (v : value) : bool :=
  match v with
  | Undefined | Null => false
  | Num NaN => false
  | Num (Fin r) => negb (Reqb r 0)
  | Num _ => true
  end.

Definition neg (x : number) : number :=
  match x with
  | Fin a => Fin (- a)
  | PosInf => NegInf
  | NegInf => PosInf
  | NaN => NaN
  end.

Definition add (x y : number) : number :=
  match x, y with
  | NaN, _ | _, NaN => NaN
  | Fin a, Fin b => Fin (a + b)
  | PosInf, NegInf | NegInf, PosInf => NaN
  | PosInf, _ | _, PosInf => PosInf
  | NegInf, _ | _, NegInf => NegInf
  end.

Definition sub (x y : number) : number := add x (neg y).

(** Sign of a real as a scaling of an infinity: [inf * r]. *)
Definition scale_inf (positive : bool) (r : R) : number :=
  if Rltb 0 r then (if positive then PosInf else NegInf)
  else if Rltb r 0 then (if positive then NegInf else PosInf)
  else NaN.

Definition mul (x y : number) : number :=
  match x, y with
  | NaN, _ | _, NaN => NaN
  | Fin a, Fin b => Fin (a * b)
  | PosInf, Fin b | Fin b, PosInf => scale_inf true b
  | NegInf, Fin b | Fin b, NegInf => scale_inf false b
  | PosInf, PosInf | NegInf, NegInf => PosInf
  | PosInf, NegInf | NegInf, PosInf => NegInf
  end.

(** [x / y].  The sources divide by the literals 2, 100 and 180 only; a
    zero divisor is taken to be the positive zero. *)
Definition div (x y : number) : number :=
  match x, y with
  | NaN, _ | _, NaN => NaN
  | Fin a, Fin b => if Reqb b 0 then scale_inf true a else Fin (a / b)
  | Fin _, _ => Fin 0
  | PosInf, Fin b => if Rltb b 0 then NegInf else PosInf
  | NegInf, Fin b => if Rltb b 0 then PosInf else NegInf
  | _, _ => NaN
  end.

(** *** The [Math] object *)

Definition Math_PI : number := Fin PI.

Definition Math_sin (x : number) : number :=
  match x with Fin a => Fin (sin a) | _ => NaN end.

Definition Math_cos (x : number) : number :=
  match x with Fin a => Fin (cos a) | _ => NaN end.

Definition Math_sqrt (x : number) : number :=
  match x with
  | Fin a => if Rltb a 0 then NaN else Fin (sqrt a)
  | PosInf => PosInf
  | _ => NaN
  end.

(** The angle of the point [(x, y)], in the interval from [-PI] to [PI]. *)
Definition atan2 (y x : R) : R :=
  if Rltb 0 x then atan (y / x)
  else if Rltb x 0 then
    (if Rleb 0 y then atan (y / x) + PI else atan (y / x) - PI)
  else if Rltb 0 y then PI / 2
  else if Rltb y 0 then - (PI / 2)
  else 0.

Definition Math_atan2 (y x : number) : number :=
  match y, x with
  | NaN, _ | _, NaN => NaN
  | Fin b, Fin a => Fin (atan2 b a)
  | PosInf, PosInf => Fin (PI / 4)
  | PosInf, NegInf => Fin (3 * PI / 4)
  | PosInf, Fin _ => Fin (PI / 2)
  | NegInf, PosInf => Fin (- (PI / 4))
  | NegInf, NegInf => Fin (- (3 * PI / 4))
  | NegInf, Fin _ => Fin (- (PI / 2))
  | Fin b, PosInf => Fin 0
  | Fin b, NegInf => if Rleb 0 b then Fin PI else Fin (- PI)
  end.

(** [Math.round]: the nearest integer, a half going up. *)
Definition Math_round (x : number) : number :=
  match x with
  | Fin a => Fin (IZR (Zfloor (a + 1 / 2)))
  | _ => x
  end.

(** *** Conversion to strings *)

Definition IntegerToString (z : Z) : string :=
  NilZero.string_of_int (Z.to_int z).

(** [ToString] on a number.  The sources convert only the results of
    [Math.round], which are integers: a finite number is printed as the
    decimal integer below it.  That is what the language prints for an
    integer of magnitude up to [2^53]; beyond, where not every integer is a
    double, the language prints the shortest digits that tell the double
    from its neighbours, in exponent notation from [10^21], and no property
    below reaches that far. *)
Definition ToString (x : number) : string :=
  match x with
  | NaN => "NaN"
  | PosInf => "Infinity"
  | NegInf => "-Infinity"
  | Fin a => IntegerToString (Zfloor a)
  end.

Fixpoint zeros (k : nat) : string :=
  match k with
  | O => EmptyString
  | S k' => String "0" (zeros k')
  end.

(** The digits of [n], at least [f + 1] of them, with a point before the
    last [f]. *)
Definition fixed_digits (n : Z) (f : nat) : string :=
  let m := IntegerToString n in
  let m := (zeros (S f - String.length m) ++ m)%string in
  let k := (String.length m - f)%nat in
  match f with
  | O => m
  | S _ => (substring 0 k m ++ "." ++ substring k f m)%string
  end.

(** [x.toFixed(f)]: [n / 10^f] is as close to [x] as possible, the larger
    [n] on a tie (fixed notation, as the language uses below [10^21]). *)
Definition toFixed (x : number) (f : nat) : string :=
  match x with
  | Fin a =>
      let n := Zfloor (Rabs a * 10 ^ f + 1 / 2) in
      ((if Rltb a 0 then "-" else "") ++ fixed_digits n f)%string
  | _ => ToString x
  end.

End JS.


(** ** distanceCalc.js: the distance engine and the alarm rule *)

Module DistanceCalc.
Import JS.

Definition EARTH_RADIUS_KM : number := Fin 6371.

(** Converts degrees to radians. *)
Definition toRadians (degrees : number) : number :=
  mul degrees (div Math_PI (Fin 180)).

(** The great-circle distance, in kilometres, between two points given in
    decimal degrees; [Infinity] when a coordinate is [null] or [undefined]. *)
Definition calculateDistance (lat1 lon1 lat2 lon2 : value) : number :=
  if eq_null lat1 || eq_null lon1 || eq_null lat2 || eq_null lon2 then PosInf
  else
    let lat1 := ToNumber lat1 in
    let lon1 := ToNumber lon1 in
    let lat2 := ToNumber lat2 in
    let lon2 := ToNumber lon2 in
    let φ1 := toRadians lat1 in
    let φ2 := toRadians lat2 in
    let Δφ := toRadians (sub lat2 lat1) in
    let Δλ := toRadians (sub lon2 lon1) in
    let a :=
      add (mul (Math_sin (div Δφ (Fin 2))) (Math_sin (div Δφ (Fin 2))))
          (mul (mul (mul (Math_cos φ1) (Math_cos φ2))
                    (Math_sin (div Δλ (Fin 2))))
               (Math_sin (div Δλ (Fin 2)))) in
    let c :=
      mul (Fin 2) (Math_atan2 (Math_sqrt a) (Math_sqrt (sub (Fin 1) a))) in
    mul EARTH_RADIUS_KM c.

(** A human-friendly string of the distance. *)
Definition formatDistance (km : number) : string :=
  if strict_eq km PosInf || isNaN km then "—"
  else if lt km (Fin 1) then
    (ToString (Math_round (mul km (Fin 1000))) ++ " m")%string
  else if lt km (Fin 10) then (toFixed km 2 ++ " km")%string
  else (ToString (Math_round km) ++ " km")%string.

Inductive AlarmState : Type :=
| safe
| approaching
| pre_alert
| alarm.

(** The string the source returns for each state. *)
Definition AlarmState_name (s : AlarmState) : string :=
  match s with
  | safe => "safe"
  | approaching => "approaching"
  | pre_alert => "pre-alert"
  | alarm => "alarm"
  end.

(** The alarm state from the distance to the destination and the distance to
    the station before it. *)
Definition getAlarmState (distToDestKm distToPrevKm : number) : AlarmState :=
  if le distToDestKm (Fin 2) then alarm
  else if le distToPrevKm (Fin 0.5) then pre_alert
  else if le distToDestKm (Fin 15) then approaching
  else safe.

End DistanceCalc.

(** ** The geolocation hooks: the live and the simulated position source *)

Module Geolocation.
Import JS.

(** *** The live source *)

Record PositionOptions : Type := {
  enableHighAccuracy : bool;
  timeout : Z;
  maximumAge : Z
}.

Definition HIGH_ACCURACY_OPTIONS : PositionOptions :=
  {| enableHighAccuracy := true; timeout := 10000; maximumAge := 5000 |}.

Definition LOW_ACCURACY_OPTIONS : PositionOptions :=
  {| enableHighAccuracy := false; timeout := 30000; maximumAge := 60000 |}.

(** The part of [navigator] the hook talks to: whether [geolocation] exists,
    the watches that are registered, and the identifier of the next one. *)
Record Navigator : Type := {
  geolocation : bool;
  watches : list (nat * PositionOptions);
  nextWatchId : nat
}.

(** The state the hook keeps. *)
Record GeoHook : Type := {
  watchIdRef : option nat;
  error : option string
}.

Definition clearWatch (id : nat) (nav : Navigator) : Navigator :=
  {| geolocation := geolocation nav;
     watches := filter (fun w => negb (Nat.eqb (fst w) id)) (watches nav);
     nextWatchId := nextWatchId nav |}.

Definition watchPosition (options : PositionOptions) (nav : Navigator)
  : nat * Navigator :=
  (nextWatchId nav,
   {| geolocation := geolocation nav;
      watches := (nextWatchId nav, options) :: watches nav;
      nextWatchId := S (nextWatchId nav) |}).

(** The default of the [distanceToDestKm] argument. *)
Definition distanceToDestKm_default (v : value) : value :=
  match v with Undefined => Num PosInf | _ => v end.

Definition stopWatching (s : Navigator * GeoHook) : Navigator * GeoHook :=
  let (nav, h) := s in
  match watchIdRef h with
  | Some id => (clearWatch id nav, {| watchIdRef := None; error := error h |})
  | None => s
  end.

Definition startWatching (distanceToDestKm : value) (s : Navigator * GeoHook)
  : Navigator * GeoHook :=
  let (nav, h) := s in
  if negb (geolocation nav) then
    (nav, {| watchIdRef := watchIdRef h;
             error := Some "Geolocation is not supported by your browser."%string |})
  else
    let options :=
      if lt (ToNumber distanceToDestKm) (Fin 50)
      then HIGH_ACCURACY_OPTIONS else LOW_ACCURACY_OPTIONS in
    let (id, nav') := watchPosition options nav in
    (nav', {| watchIdRef := Some id; error := error h |}).

(** The message set by the error callback of the watch. *)
Definition errorMessage (code : Z) : string :=
  match code with
  | 1%Z => "Location permission denied. Please allow location access in your browser settings."
  | 2%Z => "Location unavailable. Check your GPS or network connection."
  | 3%Z => "Location request timed out. Retrying..."
  | _ => "Unknown location error."
  end.

(** The effect of [useGeolocation], run when [isTracking] or the distance
    changes. *)
Definition useGeolocation (distanceToDestKm : value) (isTracking : bool)
  (s : Navigator * GeoHook) : Navigator * GeoHook :=
  let distanceToDestKm := distanceToDestKm_default distanceToDestKm in
  if isTracking then startWatching distanceToDestKm (stopWatching s)
  else stopWatching s.

(** The options of the watch the hook holds, if it holds one. *)
Definition currentOptions (s : Navigator * GeoHook) : option PositionOptions :=
  match watchIdRef (snd s) with
  | Some id =>
      option_map snd
        (find (fun w => Nat.eqb (fst w) id) (watches (fst s)))
  | None => None
  end.

(** *** The simulated source *)

Record Station : Type := {
  latitude : value;
  longitude : value
}.

Record Position : Type := {
  lat : number;
  lon : number;
  timestamp : Z
}.

(** The counters of the interval callback and whether the interval is still
    installed. *)
Record SimTimer : Type := {
  seg : nat;
  step : nat;
  installed : bool
}.

(** What one run of the interval callback does. *)
Inductive Tick : Type :=
| Cleared
| Skipped
| Emitted (position : Position) (currentSegment : nat) (progress : number).

Definition STEPS_PER_SEGMENT : nat := 100.

Definition INTERVAL_MS (speedMultiplier : number) : number :=
  div (Fin 5000) speedMultiplier.

Definition undefinedStation : Station :=
  {| latitude := Undefined; longitude := Undefined |}.

(** The interval callback; [now] is the value of [Date.now()]. *)
Definition tick (stations : list Station) (now : Z) (tm : SimTimer)
  : SimTimer * Tick :=
  if (Z.of_nat (List.length stations) - 1 <=? Z.of_nat (seg tm))%Z then
    ({| seg := seg tm; step := step tm; installed := false |}, Cleared)
  else
    let from := nth (seg tm) stations undefinedStation in
    let to := nth (seg tm + 1) stations undefinedStation in
    if negb (truthy (latitude from)) || negb (truthy (latitude to)) then
      ({| seg := S (seg tm); step := 0; installed := installed tm |}, Skipped)
    else
      let t := div (Fin (INR (step tm))) (Fin (INR STEPS_PER_SEGMENT)) in
      let lat :=
        add (ToNumber (latitude from))
            (mul (sub (ToNumber (latitude to)) (ToNumber (latitude from))) t) in
      let lon :=
        add (ToNumber (longitude from))
            (mul (sub (ToNumber (longitude to)) (ToNumber (longitude from))) t) in
      let emitted :=
        Emitted {| lat := lat; lon := lon; timestamp := now |} (seg tm) t in
      let step' := S (step tm) in
      if (STEPS_PER_SEGMENT <? step')%nat then
        ({| seg := S (seg tm); step := 0; installed := installed tm |}, emitted)
      else
        ({| seg := seg tm; step := step'; installed := installed tm |}, emitted).

(** The default of the [speedMultiplier] argument. *)
Definition speedMultiplier_default (v : value) : value :=
  match v with Undefined => Num (Fin 200) | _ => v end.

(** The effect of [useSimulatedGeolocation]: the period and the counters of
    the interval it installs, if any ([stations] is [None] when the argument
    is missing). *)
Definition startSimulation (stations : option (list Station)) (isActive : bool)
  (speedMultiplier : value) : option (number * SimTimer) :=
  match stations with
  | Some l =>
      if negb isActive || (List.length l <? 2)%nat then None
      else
        Some (INTERVAL_MS (ToNumber (speedMultiplier_default speedMultiplier)),
              {| seg := 0; step := 0; installed := true |})
  | None => None
  end.

(** The first [n] firings of the interval, the [i]-th at time [clock i]; a
    cleared interval fires no more. *)
Fixpoint firings (stations : list Station) (clock : nat -> Z) (i n : nat)
  (tm : SimTimer) : list Tick :=
  match n with
  | O => []
  | S n' =>
      if installed tm then
        let (tm', r) := tick stations (clock i) tm in
        r :: firings stations clock (S i) n' tm'
      else []
  end.

(** The whole playback: what the hook does over [n] periods of the interval
    once its effect has run. *)
Definition useSimulatedGeolocation (stations : option (list Station))
  (isActive : bool) (speedMultiplier : value) (clock : nat -> Z) (n : nat)
  : list Tick :=
  match stations, startSimulation stations isActive speedMultiplier with
  | Some l, Some (_, tm) => firings l clock 0 n tm
  | _, _ => []
  end.

(** The samples among the firings, oldest first. *)
Definition samples (l : list Tick) : list Position :=
  flat_map (fun r => match r with Emitted p _ _ => [p] | _ => [] end) l.

End Geolocation.

(** ** sw.js: the notifications of the service worker *)

Module ServiceWorker.
Import JS.
Open Scope string_scope.

Record NotificationAction : Type := {
  action : string;
  action_title : string
}.

Record AlarmPayload : Type := {
  stationName : string;
  distance : number
}.

Record PreAlertPayload : Type := {
  prevStationName : string;
  destStationName : string
}.

Record NotificationOptions : Type := {
  body : string;
  icon : string;
  badge : option string;
  tag : string;
  renotify : option bool;
  requireInteraction : bool;
  vibrate : list Z;
  actions : list NotificationAction;
  data : option (AlarmPayload * Z)
}.

Record Notification : Type := {
  title : string;
  options : NotificationOptions
}.

(** The messages of the main thread, by their [type]. *)
Inductive Message : Type :=
| TRIGGER_ALARM (payload : AlarmPayload)
| PRE_ALERT (payload : PreAlertPayload)
| CACHE_ROUTE (payload : string)
| OtherMessage (type : string).

(** What the worker acts on: the notifications on display and the entry
    [/cached-route] of its cache. *)
Record Worker : Type := {
  notifications : list Notification;
  cachedRoute : option string
}.

(** [registration.showNotification]: a notification replaces the one on
    display under the same tag. *)
Definition showNotification (t : string) (o : NotificationOptions)
  (w : Worker) : Worker :=
  {| notifications :=
       {| title := t; options := o |}
       :: filter (fun n => negb (String.eqb (tag (options n)) (tag o)))
                 (notifications w);
     cachedRoute := cachedRoute w |}.

Definition showAlarmNotification (now : Z) (p : AlarmPayload) (w : Worker)
  : Worker :=
  showNotification "🚨 WAKE UP! Destination Approaching!"
    {| body :=
         stationName p ++ " is "
         ++ (if lt (distance p) (Fin 1)
             then ToString (Math_round (mul (distance p) (Fin 1000))) ++ "m"
             else toFixed (distance p) 1 ++ "km")
         ++ " away. Get ready!";
       icon := "/icons/icon-192x192.png";
       badge := Some "/icons/badge-72x72.png";
       tag := "destination-alarm";
       renotify := Some true;
       requireInteraction := true;
       vibrate := [500; 200; 500; 200; 500; 200; 1000]%Z;
       actions :=
         [ {| action := "dismiss"; action_title := "✅ I'm Awake!" |};
           {| action := "snooze"; action_title := "⏰ Snooze 2 min" |} ];
       data := Some (p, now) |}
    w.

Definition showPreAlertNotification (p : PreAlertPayload) (w : Worker)
  : Worker :=
  showNotification "⚠️ Next Stop Alert"
    {| body :=
         "Leaving " ++ prevStationName p ++ ". Your destination "
         ++ destStationName p ++ " is the next stop!";
       icon := "/icons/icon-192x192.png";
       badge := None;
       tag := "pre-alert";
       renotify := None;
       requireInteraction := false;
       vibrate := [200; 100; 200]%Z;
       actions := [];
       data := None |}
    w.

Definition cacheRouteData (routeData : string) (w : Worker) : Worker :=
  {| notifications := notifications w; cachedRoute := Some routeData |}.

(** The [message] listener; [now] is the value of [Date.now()]. *)
Definition onMessage (now : Z) (m : Message) (w : Worker) : Worker :=
  match m with
  | TRIGGER_ALARM payload => showAlarmNotification now payload w
  | PRE_ALERT payload => showPreAlertNotification payload w
  | CACHE_ROUTE payload => cacheRouteData payload w
  | OtherMessage _ => w
  end.

(** What the worker posts to the windows of the application. *)
Inductive ClientMessage : Type :=
| DISMISS_ALARM
| SNOOZE_ALARM (duration : Z).

(** A window of the application. *)
Record Client : Type := {
  client_id : nat
}.

(** What a click leads to: a message to windows, the focus on a window, or
    a new window. *)
Inductive ClickEffect : Type :=
| Posted (recipients : list Client) (m : ClientMessage)
| Focused (c : Client)
| Opened (url : string).

(** The [notificationclick] listener: the notification [n] is closed (no
    other is on display under its tag); a click on an action is relayed to
    every window, a click elsewhere ([clicked] is then empty) brings the
    application to the front.  [clients] are the windows [matchAll] finds. *)
Definition onNotificationClick (n : Notification) (clicked : string)
  (clients : list Client) (w : Worker) : Worker * ClickEffect :=
  let w' :=
    {| notifications :=
         filter (fun m => negb (String.eqb (tag (options m)) (tag (options n))))
                (notifications w);
       cachedRoute := cachedRoute w |} in
  if String.eqb clicked "dismiss" then (w', Posted clients DISMISS_ALARM)
  else if String.eqb clicked "snooze" then
    (w', Posted clients (SNOOZE_ALARM 120000))
  else
    (w', match clients with
         | focused :: _ => Focused focused
         | [] => Opened "/"
         end).

End ServiceWorker.

(** ** index.js and the train router: the Express bridge *)

Module Bridge.
Import JS.
Open Scope string_scope.

(** The bodies sent with [res.json]. *)
Inductive json : Type :=
| JNull
| JBool (b : bool)
| JNumber (r : R)
| JString (s : string)
| JArray (items : list json)
| JObject (fields : list (string * json)).

Record Response : Type := {
  status : Z;
  body : json
}.

(** One stop in the answer of the scraper; a field the scraper leaves out is
    [None], and a coordinate is a number or missing. *)
Record Event : Type := {
  station : option string;
  code : option string;
  arrival : option string;
  departure : option string;
  delay : option string;
  lat : value;
  lon : value;
  type : option string
}.

Record ScraperData : Type := {
  train_number : option string;
  train_name : option string;
  last_update : option string;
  events : option (list Event)
}.

(** The error a failed request is rejected with. *)
Record RequestError : Type := {
  error_code : option string;
  response_status : option Z;
  message : string
}.

Inductive UpstreamResult : Type :=
| Fulfilled (data : ScraperData)
| Rejected (error : RequestError).

(** What a route handler does: it answers at once, or it sends one request
    to the provider and answers from the outcome. *)
Inductive Handler : Type :=
| Reply (res : Response)
| Upstream (url : string) (timeout : option Z)
    (answer : UpstreamResult -> Response).

Definition is_digit (c : ascii) : bool :=
  ((48 <=? nat_of_ascii c) && (nat_of_ascii c <=? 57))%nat.

(** [/^\d{5}$/.test(s)] *)
Definition test_five_digits (s : string) : bool :=
  (String.length s =? 5)%nat && forallb is_digit (list_ascii_of_string s).

(** [s || d] on an optional string: the empty string is falsy. *)
Definition or_string (s : option string) (d : string) : string :=
  match s with
  | Some EmptyString | None => d
  | Some s' => s'
  end.

(** A field whose value may be [undefined], which [res.json] leaves out. *)
Definition optional (k : string) (s : option string) : list (string * json) :=
  match s with
  | Some s' => [(k, JString s')]
  | None => []
  end.

(** [parseFloat] on a coordinate, which is a number, [null] or
    [undefined]: a number comes back as it is, the other two give [NaN]. *)
Definition parseFloat (v : value) : number :=
  match v with
  | Num n => n
  | _ => NaN
  end.

(** [n || null] as [res.json] sends it. *)
Definition number_or_null (n : number) : json :=
  match n with
  | Fin r => if truthy (Num n) then JNumber r else JNull
  | _ => JNull
  end.

(** [v || null] on a coordinate. *)
Definition value_or_null (v : value) : json :=
  match v with
  | Num n => number_or_null n
  | _ => JNull
  end.

Fixpoint mapi {A B : Type} (f : A -> nat -> B) (i : nat) (l : list A)
  : list B :=
  match l with
  | [] => []
  | x :: l' => f x i :: mapi f (S i) l'
  end.

Definition ECONNREFUSED (e : RequestError) : bool :=
  match error_code e with
  | Some c => String.eqb c "ECONNREFUSED"
  | None => false
  end.

(** [GET /api/train/:trainNo] of index.js; [now] is [new Date().toISOString()]. *)
Definition api_train (SCRAPER_URL now trainNo : string) : Handler :=
  if negb (test_five_digits trainNo) then
    Reply {| status := 400;
             body := JObject
               [("error", JString "Invalid train number. Must be 5 digits.")] |}
  else
    Upstream (SCRAPER_URL ++ "/train/" ++ trainNo) (Some 15000%Z)
      (fun result =>
         match result with
         | Fulfilled data =>
             let stations :=
               mapi (fun stop index =>
                       JObject
                         [("index", JNumber (INR index));
                          ("name", JString (or_string (station stop) "Unknown Station"));
                          ("code", JString (or_string (code stop) "???"));
                          ("arrivalTime", JString (or_string (arrival stop) "N/A"));
                          ("departureTime", JString (or_string (departure stop) "N/A"));
                          ("delay", JString (or_string (delay stop) "00:00"));
                          ("latitude", number_or_null (parseFloat (lat stop)));
                          ("longitude", number_or_null (parseFloat (lon stop)));
                          ("status",
                           match type stop with
                           | Some EmptyString | None => JNull
                           | Some s => JString s
                           end)])
                    0
                    (match events data with Some l => l | None => [] end) in
             {| status := 200;
                body := JObject
                  [("success", JBool true);
                   ("trainNumber", JString (or_string (train_number data) trainNo));
                   ("trainName",
                    JString (or_string (train_name data) ("Train " ++ trainNo)));
                   ("lastUpdated", JString (or_string (last_update data) now));
                   ("stations", JArray stations)] |}
         | Rejected error =>
             if ECONNREFUSED error then
               {| status := 503;
                  body := JObject
                    [("success", JBool false);
                     ("error",
                      JString "Python TrainTrack scraper is offline. Start it on port 8000.");
                     ("fallback", JBool true)] |}
             else
               match response_status error with
               | Some 404%Z =>
                   {| status := 404;
                      body := JObject
                        [("success", JBool false);
                         ("error", JString ("Train " ++ trainNo ++ " not found."))] |}
               | _ =>
                   {| status := 500;
                      body := JObject
                        [("success", JBool false);
                         ("error", JString "Failed to fetch train data.")] |}
               end
         end).

Definition PYTHON_SERVICE_URL : string := "http://localhost:8000".

(** [GET /:trainNo] of the train router. *)
Definition router_train (trainNo : string) : Handler :=
  if negb (test_five_digits trainNo) then
    Reply {| status := 400;
             body := JObject
               [("error", JString "Invalid train number. Must be 5 digits.")] |}
  else
    Upstream (PYTHON_SERVICE_URL ++ "/train/" ++ trainNo) None
      (fun result =>
         match result with
         | Fulfilled {| train_number := train_number;
                        last_update := last_update;
                        events := Some events |} =>
             {| status := 200;
                body := JObject
                  (optional "trainNumber" train_number
                   ++ optional "lastUpdated" last_update
                   ++ [("stations",
                        JArray
                          (map (fun event =>
                                  JObject
                                    (optional "name" (station event)
                                     ++ optional "code" (code event)
                                     ++ optional "status" (type event)
                                     ++ optional "delay" (delay event)
                                     ++ [("latitude", value_or_null (lat event));
                                         ("longitude", value_or_null (lon event))]))
                               events))]) |}
         | Fulfilled _ =>
             (* [events.map] throws on a missing [events]; the error has no [code] *)
             {| status := 500;
                body := JObject [("error", JString "Failed to fetch train data.")] |}
         | Rejected error =>
             if ECONNREFUSED error then
               {| status := 503;
                  body := JObject
                    [("error",
                      JString "Python Scraper (TrainTrack) is offline. Start it on port 8000.")] |}
             else
               {| status := 500;
                  body := JObject [("error", JString "Failed to fetch train data.")] |}
         end).

(** One line of the table in [generateMockRoute]. *)
Record MockStop : Type := {
  name : string;
  stop_code : string;
  stop_lat : R;
  stop_lon : R;
  arr : string;
  dep : string
}.

Definition mockStop (n c : string) (la lo : R) (a d : string) : MockStop :=
  {| name := n; stop_code := c; stop_lat := la; stop_lon := lo;
     arr := a; dep := d |}.

(** Chennai to Kanyakumari (train 12661, Cape Express). *)
Definition route : list MockStop :=
  [ mockStop "Chennai Central"     "MAS"  13.0827 80.2707 "Origin" "07:10";
    mockStop "Chengalpattu"        "CGL"  12.6921 79.9765 "08:18" "08:20";
    mockStop "Villupuram Junction" "VM"   11.9393 79.4924 "09:48" "09:53";
    mockStop "Cuddalore Port"      "CUPJ" 11.7447 79.7678 "10:22" "10:24";
    mockStop "Chidambaram"         "CDM"  11.3993 79.6934 "11:05" "11:07";
    mockStop "Mayiladuthurai Jn"   "MV"   11.1034 79.6508 "11:55" "12:00";
    mockStop "Thanjavur Junction"  "TJ"   10.7870 79.1378 "13:00" "13:05";
    mockStop "Trichy Junction"     "TPJ"  10.8155 78.6877 "14:05" "14:15";
    mockStop "Dindigul Junction"   "DG"   10.3673 77.9803 "15:18" "15:20";
    mockStop "Madurai Junction"    "MDU"  9.9252  78.1198 "16:30" "16:40";
    mockStop "Virudhunagar Jn"     "VPT"  9.5810  77.9624 "17:28" "17:30";
    mockStop "Tirunelveli Jn"      "TEN"  8.7139  77.7567 "18:55" "19:00";
    mockStop "Nagercoil Junction"  "NCJ"  8.1833  77.4119 "19:55" "20:00";
    mockStop "Kanyakumari"         "CAPE" 8.0883  77.5385 "20:30" "Terminus" ].

Definition generateMockRoute (trainNo : string) : list json :=
  mapi (fun s index =>
          JObject
            [("index", JNumber (INR index));
             ("name", JString (name s));
             ("code", JString (stop_code s));
             ("arrivalTime", JString (arr s));
             ("departureTime", JString (dep s));
             ("delay", JString "00:00");
             ("latitude", JNumber (stop_lat s));
             ("longitude", JNumber (stop_lon s));
             ("status", JNull)])
       0 route.

(** [GET /api/demo/:trainNo]; [now] is [new Date().toISOString()]. *)
Definition api_demo (now trainNo : string) : Handler :=
  let mockStations := generateMockRoute trainNo in
  Reply {| status := 200;
           body := JObject
             [("success", JBool true);
              ("trainNumber", JString trainNo);
              ("trainName",
               JString ("Chennai Kanyakumari Cape Express (" ++ trainNo ++ ")"));
              ("lastUpdated", JString now);
              ("stations", JArray mockStations);
              ("isDemo", JBool true)] |}.

(** The value of a field of an object. *)
Definition field (k : string) (j : json) : option json :=
  match j with
  | JObject fields =>
      option_map snd (find (fun kv => String.eqb (fst kv) k) fields)
  | _ => None
  end.

End Bridge.

(** ** sw.js: the cache of the service worker *)

Module OfflineCache.
Open Scope string_scope.

Definition CACHE_NAME : string := "train-alarm-v1".

Definition STATIC_ASSETS : list string :=
  ["/"; "/index.html"; "/alarm-tone.mp3"; "/manifest.json"].

Record Response : Type := {
  status : Z;
  body : string
}.

(** [response.ok]: a status from 200 to 299. *)
Definition ok (r : Response) : bool :=
  ((200 <=? status r) && (status r <=? 299))%Z.

Record Request : Type := {
  method : string;
  url : string
}.

(** A cache holds responses by the URL of their request; the storage of the
    origin holds caches by name, in the order of their creation. *)
Definition Cache : Type := list (string * Response).
Definition CacheStorage : Type := list (string * Cache).

(** What a fetch of a URL gives: a response, or nothing when it is
    rejected. *)
Definition Network : Type := string -> option Response.

Definition cache_match (c : Cache) (u : string) : option Response :=
  option_map snd (find (fun e => String.eqb (fst e) u) c).

(** [cache.put]: the response replaces the one stored for the URL. *)
Definition cache_put (u : string) (r : Response) (c : Cache) : Cache :=
  (u, r) :: filter (fun e => negb (String.eqb (fst e) u)) c.

(** [caches.open]: the cache of that name, created when there is none. *)
Definition caches_open (name : string) (st : CacheStorage) : CacheStorage :=
  if existsb (fun c => String.eqb (fst c) name) st then st
  else (st ++ [(name, [])])%list.

Definition update_cache (name : string) (f : Cache -> Cache)
  (st : CacheStorage) : CacheStorage :=
  map (fun c => if String.eqb (fst c) name then (fst c, f (snd c)) else c) st.

(** [caches.match]: the first response found, cache after cache. *)
Fixpoint caches_match (st : CacheStorage) (u : string) : option Response :=
  match st with
  | [] => None
  | (_, c) :: st' =>
      match cache_match c u with
      | Some r => Some r
      | None => caches_match st' u
      end
  end.

(** The fetches of [cache.addAll]: every URL must give a response that is
    [ok], or the whole call is rejected. *)
Fixpoint fetch_all (net : Network) (urls : list string)
  : option (list (string * Response)) :=
  match urls with
  | [] => Some []
  | u :: urls' =>
      match net u with
      | Some r =>
          if ok r then
            match fetch_all net urls' with
            | Some l => Some ((u, r) :: l)
            | None => None
            end
          else None
      | None => None
      end
  end.

Definition put_all (entries : list (string * Response)) (c : Cache) : Cache :=
  fold_left (fun c e => cache_put (fst e) (snd e) c) entries c.

(** The [install] listener: the static assets are fetched and stored; when
    one of them cannot be fetched nothing is stored, and the installation
    goes on.  The paths are resolved at [origin]. *)
Definition onInstall (origin : string) (net : Network) (st : CacheStorage)
  : CacheStorage :=
  let st := caches_open CACHE_NAME st in
  match fetch_all net (map (append origin) STATIC_ASSETS) with
  | Some entries => update_cache CACHE_NAME (put_all entries) st
  | None => st
  end.

(** The [activate] listener: every cache of another name is deleted. *)
Definition onActivate (st : CacheStorage) : CacheStorage :=
  filter (fun c => String.eqb (fst c) CACHE_NAME) st.

(** [hay.includes(needle)] *)
Fixpoint includes (needle hay : string) : bool :=
  String.prefix needle hay
  || match hay with
     | EmptyString => false
     | String _ hay' => includes needle hay'
     end.

(** What becomes of a request: the listener leaves it to the browser, or it
    answers with a response, or its answer fails. *)
Inductive FetchResult : Type :=
| PassThrough
| Responded (r : Response)
| NetworkError.

(** The [fetch] listener: network first for the API, cache first for the
    rest. *)
Definition onFetch (origin : string) (net : Network) (st : CacheStorage)
  (request : Request) : FetchResult :=
  if negb (String.eqb (method request) "GET") then PassThrough
  else if negb (String.prefix origin (url request)) then PassThrough
  else if includes "/api/" (url request) then
    match net (url request) with
    | Some r => Responded r
    | None =>
        match caches_match st (url request) with
        | Some r => Responded r
        | None => NetworkError
        end
    end
  else
    match caches_match st (url request) with
    | Some cached => Responded cached
    | None =>
        match net (url request) with
        | Some r => Responded r
        | None => NetworkError
        end
    end.

(** The digit of [n], below 16, in lower-case hexadecimal. *)
Definition hex_digit (n : nat) : ascii :=
  nth n ["0"; "1"; "2"; "3"; "4"; "5"; "6"; "7"; "8"; "9";
         "a"; "b"; "c"; "d"; "e"; "f"]%char "0"%char.

(** How [JSON.stringify] writes one character of a string: the short
    escapes for backspace, tab, line feed, form feed, carriage return, the
    quotation mark (code 34) and the backslash (code 92); [\u00..] for the
    other control characters; the character itself otherwise. *)
Definition JSON_escape (c : ascii) : string :=
  let n := nat_of_ascii c in
  if (n =? 8)%nat then "\b"
  else if (n =? 9)%nat then "\t"
  else if (n =? 10)%nat then "\n"
  else if (n =? 12)%nat then "\f"
  else if (n =? 13)%nat then "\r"
  else if (n =? 34)%nat then String "092" (String "034" EmptyString)
  else if (n =? 92)%nat then String "092" (String "092" EmptyString)
  else if (n <? 32)%nat then
    "\u00" ++ String (hex_digit (n / 16)) (String (hex_digit (n mod 16)) EmptyString)
  else String c EmptyString.

Fixpoint JSON_escape_all (s : string) : string :=
  match s with
  | EmptyString => EmptyString
  | String c s' => JSON_escape c ++ JSON_escape_all s'
  end.

(** [JSON.stringify] on a string, which the payload of [CACHE_ROUTE] is
    taken to be: the string between quotation marks, its characters
    escaped. *)
Definition JSON_stringify (s : string) : string :=
  String "034" (JSON_escape_all s ++ String "034" EmptyString).

(** [cacheRouteData] on the storage: the JSON text of the route is put
    under [/cached-route] in the cache of the worker. *)
Definition cacheRouteData (origin routeData : string) (st : CacheStorage)
  : CacheStorage :=
  update_cache CACHE_NAME
    (cache_put (origin ++ "/cached-route")
               {| status := 200; body := JSON_stringify routeData |})
    (caches_open CACHE_NAME st).

(** The events that reach the worker, as far as its storage goes. *)
Inductive Event : Type :=
| Install (net : Network)
| Activate
| Fetch (net : Network) (request : Request)
| CacheRoute (routeData : string).

Definition step (origin : string) (st : CacheStorage) (e : Event)
  : CacheStorage :=
  match e with
  | Install net => onInstall origin net st
  | Activate => onActivate st
  | Fetch _ _ => st
  | CacheRoute routeData => cacheRouteData origin routeData st
  end.

Definition run (origin : string) (events : list Event) (st : CacheStorage)
  : CacheStorage :=
  fold_left (step origin) events st.

End OfflineCache.

(** ** trainController.js: the controller and the RapidAPI server *)

Module Controller.
Import JS Bridge.
Open Scope string_scope.

(** A field that holds a coordinate as the provider gave it: left out when
    [undefined], [null] when it is no finite number. *)
Definition optional_value (k : string) (v : value) : list (string * json) :=
  match v with
  | Undefined => []
  | Num (Fin r) => [(k, JNumber r)]
  | _ => [(k, JNull)]
  end.

(** [getLiveStatus]: the route of a train from the scraper. *)
Definition getLiveStatus (trainNo : string) : Handler :=
  Upstream ("http://localhost:8000/train/" ++ trainNo) None
    (fun result =>
       match result with
       | Fulfilled data =>
           match events data with
           | None =>
               {| status := 404;
                  body := JObject [("message", JString "Train data not found")] |}
           | Some stops =>
               {| status := 200;
                  body := JObject
                    (optional "trainNumber" (train_number data)
                     ++ optional "lastUpdated" (last_update data)
                     ++ [("route",
                          JArray
                            (map (fun stop =>
                                    JObject
                                      (optional "station" (station stop)
                                       ++ optional "code" (code stop)
                                       ++ [("arrivalTime",
                                            JString (or_string (arrival stop) "N/A"));
                                           ("departureTime",
                                            JString (or_string (departure stop) "N/A"));
                                           ("delay",
                                            JString (or_string (delay stop) "00:00"))]
                                       ++ optional_value "lat" (lat stop)
                                       ++ optional_value "lng" (lon stop)))
                                 stops))]) |}
           end
       | Rejected _ =>
           {| status := 500;
              body := JObject
                [("message", JString "Error connecting to scraper service")] |}
       end).

End Controller.

Module RapidBridge.
Import JS Bridge.
Open Scope string_scope.

(** One station in the answer of RapidAPI, under either of its spellings. *)
Record Stop : Type := {
  stationName : option string;
  stnName : option string;
  stationCode : option string;
  stnCode : option string;
  arrivalTime : option string;
  schArrival : option string;
  departureTime : option string;
  schDeparture : option string;
  delayInArrival : option string;
  lat : value;
  latitude : value;
  lng : value;
  lon : value;
  longitude : value
}.

(** The object under [data] of the answer. *)
Record Inner : Type := {
  inner_stations : option (list Stop);
  inner_stationList : option (list Stop);
  trainName : option string
}.

(** The parsed answer, and the JSON it was parsed from. *)
Record Payload : Type := {
  data : option Inner;
  stations : option (list Stop);
  stationList : option (list Stop);
  raw : json
}.

(** What [fetchLiveTrainStatus] settles to: the status and the parsed body,
    or an error with its message. *)
Inductive Outcome : Type :=
| Resolved (status : Z) (payload : Payload)
| Failed (message : string).

Inductive Handler : Type :=
| Reply (res : Response)
| Request (hostname path : string) (answer : Outcome -> Response).

(** [a || b] on lists: an array, even an empty one, is truthy. *)
Definition or_list {A : Type} (a b : option (list A)) : option (list A) :=
  match a with
  | Some l => Some l
  | None => b
  end.

(** [a || b] on optional strings and on coordinates. *)
Definition or_else (a b : option string) : option string :=
  match a with
  | Some EmptyString | None => b
  | Some s => Some s
  end.

Definition or_value (a b : value) : value :=
  if truthy a then a else b.

(** The stations of the answer, wherever they are. *)
Definition stops_of (p : Payload) : list Stop :=
  match
    or_list
      (or_list
         (or_list
            (match data p with Some d => inner_stations d | None => None end)
            (match data p with Some d => inner_stationList d | None => None end))
         (stations p))
      (stationList p)
  with
  | Some l => l
  | None => []
  end.

(** [GET /api/train/:trainNo] of the RapidAPI server; [now] is
    [new Date().toISOString()]. *)
Definition api_train (RAPIDAPI_KEY now trainNo : string) : Handler :=
  if negb (test_five_digits trainNo) then
    Reply {| status := 400;
             body := JObject
               [("success", JBool false);
                ("error", JString "Train number must be 5 digits.")] |}
  else if String.eqb RAPIDAPI_KEY "" then
    Reply {| status := 503;
             body := JObject
               [("success", JBool false);
                ("error", JString "No RapidAPI key configured.")] |}
  else
    Request "irctc-train-api.p.rapidapi.com"
      ("/api/v1/live-train-status?trainNo=" ++ trainNo ++ "&startDay=0")
      (fun outcome =>
         match outcome with
         | Resolved _ payload =>
             let stops := stops_of payload in
             match stops with
             | [] =>
                 {| status := 404;
                    body := JObject
                      [("success", JBool false);
                       ("error", JString ("No data for train " ++ trainNo ++ "."));
                       ("raw", raw payload)] |}
             | _ :: _ =>
                 {| status := 200;
                    body := JObject
                      [("success", JBool true);
                       ("trainNumber", JString trainNo);
                       ("trainName",
                        JString
                          (or_string
                             (match data payload with
                              | Some d => trainName d
                              | None => None
                              end)
                             ("Train " ++ trainNo)));
                       ("lastUpdated", JString now);
                       ("stations",
                        JArray
                          (mapi (fun s i =>
                                   JObject
                                     [("index", JNumber (INR i));
                                      ("name",
                                       JString
                                         (or_string
                                            (or_else (stationName s) (stnName s))
                                            "Unknown"));
                                      ("code",
                                       JString
                                         (or_string
                                            (or_else (stationCode s) (stnCode s))
                                            "???"));
                                      ("arrivalTime",
                                       JString
                                         (or_string
                                            (or_else (arrivalTime s) (schArrival s))
                                            "N/A"));
                                      ("departureTime",
                                       JString
                                         (or_string
                                            (or_else (departureTime s) (schDeparture s))
                                            "N/A"));
                                      ("delay",
                                       JString (or_string (delayInArrival s) "0"));
                                      ("latitude",
                                       number_or_null
                                         (parseFloat (or_value (lat s) (latitude s))));
                                      ("longitude",
                                       number_or_null
                                         (parseFloat
                                            (or_value (or_value (lng s) (lon s))
                                                      (longitude s))))])
                                0 stops))] |}
             end
         | Failed message =>
             {| status := 500;
                body := JObject
                  [("success", JBool false); ("error", JString message)] |}
         end).

End RapidBridge.

(** ** The life of the tracking hook *)

Module Lifecycle.
Import JS Geolocation.

(** What React does with the effect of [useGeolocation]: it runs it, with the
    distance and the tracking flag of the render, and it runs its cleanup,
    which is [stopWatching]. *)
Inductive HookEvent : Type :=
| Effect (distanceToDestKm : value) (isTracking : bool)
| Cleanup.

Definition hookStep (s : Navigator * GeoHook) (e : HookEvent)
  : Navigator * GeoHook :=
  match e with
  | Effect distanceToDestKm isTracking =>
      useGeolocation distanceToDestKm isTracking s
  | Cleanup => stopWatching s
  end.

Definition hookRun (events : list HookEvent) (s : Navigator * GeoHook)
  : Navigator * GeoHook :=
  fold_left hookStep events s.

(** What reaches the service worker: a message, at a time, or a click on a
    notification, with the windows open then. *)
Inductive WorkerEvent : Type :=
| MessageEvent (now : Z) (m : ServiceWorker.Message)
| ClickEvent (n : ServiceWorker.Notification) (clicked : string)
    (clients : list ServiceWorker.Client).

Definition workerStep (w : ServiceWorker.Worker) (e : WorkerEvent)
  : ServiceWorker.Worker :=
  match e with
  | MessageEvent now m => ServiceWorker.onMessage now m w
  | ClickEvent n clicked clients =>
      fst (ServiceWorker.onNotificationClick n clicked clients w)
  end.

Definition workerRun (events : list WorkerEvent) (w : ServiceWorker.Worker)
  : ServiceWorker.Worker :=
  fold_left workerStep events w.

End Lifecycle.

(** ** The notions of the statements *)

Module Spec.
Import JS DistanceCalc Geolocation.

(** The transition rule of the alarm state machine as the specification
    words it, in priority order, the first match winning:
    1. distToDest <= alarmKm (2) gives alarm;
    2. distToPrevStation <= preAlertKm (0.5) gives pre-alert;
    3. distToDest <= approachKm (15) gives approaching;
    4. otherwise safe. *)
Inductive priority_rule (distToDest distToPrev : number)
  : AlarmState -> Prop :=
| rule_alarm :
    le distToDest (Fin 2) = true ->
    priority_rule distToDest distToPrev alarm
| rule_pre_alert :
    le distToDest (Fin 2) = false ->
    le distToPrev (Fin 0.5) = true ->
    priority_rule distToDest distToPrev pre_alert
| rule_approaching :
    le distToDest (Fin 2) = false ->
    le distToPrev (Fin 0.5) = false ->
    le distToDest (Fin 15) = true ->
    priority_rule distToDest distToPrev approaching
| rule_safe :
    le distToDest (Fin 2) = false ->
    le distToPrev (Fin 0.5) = false ->
    le distToDest (Fin 15) = false ->
    priority_rule distToDest distToPrev safe.

(** The formula of the header of distanceCalc.js, on real numbers:
    a = sin²(Δφ/2) + cos(φ1)·cos(φ2)·sin²(Δλ/2), c = 2·atan2(√a, √(1−a)),
    d = R·c with R = 6371 km. *)
Definition radians (degrees : R) : R := degrees * (PI / 180).

Definition haversine_a (lat1 lon1 lat2 lon2 : R) : R :=
  sin (radians (lat2 - lat1) / 2) * sin (radians (lat2 - lat1) / 2)
  + cos (radians lat1) * cos (radians lat2)
    * sin (radians (lon2 - lon1) / 2) * sin (radians (lon2 - lon1) / 2).

Definition haversine_km (lat1 lon1 lat2 lon2 : R) : R :=
  let a := haversine_a lat1 lon1 lat2 lon2 in
  6371 * (2 * atan2 (sqrt a) (sqrt (1 - a))).

(** A station with present coordinates: both are finite numbers. *)
Definition present (s : Station) : Prop :=
  exists a b : R, latitude s = Num (Fin a) /\ longitude s = Num (Fin b).

(** A sample at the exact coordinates of a station. *)
Definition at_station (p : Position) (s : Station) : Prop :=
  latitude s = Num (lat p) /\ longitude s = Num (lon p).

(** A station the playback does not skip: its coordinates are present and
    its latitude is truthy. *)
Definition truthy_station (s : Station) : Prop :=
  present s /\ truthy (latitude s) = true.

(** The counters when the interval is installed. *)
Definition initialTimer : SimTimer :=
  {| seg := 0; step := 0; installed := true |}.

(** The counters after [q] firings of the interval callback. *)
Definition timer_after (stations : list Station) (q : nat) (tm : SimTimer)
  : SimTimer :=
  Nat.iter q (fun t => fst (tick stations 0 t)) tm.

(** A decimal digit, and a string of exactly five of them. *)
Definition decimal_digit (c : ascii) : Prop :=
  In c ["0"; "1"; "2"; "3"; "4"; "5"; "6"; "7"; "8"; "9"]%char.

Definition five_decimal_digits (s : string) : Prop :=
  exists a b c d e : ascii,
    s = String a (String b (String c (String d (String e EmptyString))))
    /\ Forall decimal_digit [a; b; c; d; e].

(** A station of a route as the bridge sends it: the sequence index [i], a
    name, a code and both coordinates. *)
Definition station_object (i : nat) (j : Bridge.json) : Prop :=
  Bridge.field "index" j = Some (Bridge.JNumber (INR i))
  /\ (exists s, Bridge.field "name" j = Some (Bridge.JString s)
                /\ s <> EmptyString)
  /\ (exists s, Bridge.field "code" j = Some (Bridge.JString s)
                /\ s <> EmptyString)
  /\ (exists r, Bridge.field "latitude" j = Some (Bridge.JNumber r))
  /\ (exists r, Bridge.field "longitude" j = Some (Bridge.JNumber r)).

(** The integer nearest to [x], the larger one when [x] is half-way. *)
Definition nearest_integer (x : R) (n : Z) : Prop :=
  IZR n - 1 / 2 <= x < IZR n + 1 / 2.




End Spec.

(** ** Further notions *)

Module Notions.
Import JS DistanceCalc.

(** How urgent a state is. *)
Definition severity (s : AlarmState) : nat :=
  match s with
  | safe => 0
  | approaching => 1
  | pre_alert => 2
  | alarm => 3
  end.

(** The navigator holds the watch of the hook and no other. *)
Definition holds_only (s : Geolocation.Navigator * Geolocation.GeoHook)
  : Prop :=
  match Geolocation.watchIdRef (snd s) with
  | Some id => exists o, Geolocation.watches (fst s) = [(id, o)]
  | None => Geolocation.watches (fst s) = []
  end.

(** The tags of the notifications on display. *)
Definition tags (w : ServiceWorker.Worker) : list string :=
  map (fun n => ServiceWorker.tag (ServiceWorker.options n))
      (ServiceWorker.notifications w).

(** The worker before any event. *)
Definition freshWorker : ServiceWorker.Worker :=
  {| ServiceWorker.notifications := []; ServiceWorker.cachedRoute := None |}.

(** The requests the worker may hold a response for: the static assets and
    the cached route, at [origin]. *)
Definition precached (origin u : string) : Prop :=
  In u (map (append origin) OfflineCache.STATIC_ASSETS)
  \/ u = (origin ++ "/cached-route")%string.

(** A coordinate as the bridge sends it: the number itself when it is
    finite and not zero, [null] otherwise. *)
Definition sent_coordinate (v : JS.value) (j : Bridge.json) : Prop :=
  match v with
  | JS.Num (JS.Fin r) =>
      (r <> 0 /\ j = Bridge.JNumber r) \/ (r = 0 /\ j = Bridge.JNull)
  | _ => j = Bridge.JNull
  end.

(** The answer of a handler to an outcome of its request to the provider,
    when it makes one. *)
Definition answer_of (h : Bridge.Handler) (r : Bridge.UpstreamResult)
  : option Bridge.Response :=
  match h with
  | Bridge.Upstream _ _ answer => Some (answer r)
  | Bridge.Reply _ => None
  end.

Definition rapid_answer_of (h : RapidBridge.Handler) (o : RapidBridge.Outcome)
  : option Bridge.Response :=
  match h with
  | RapidBridge.Request _ _ answer => Some (answer o)
  | RapidBridge.Reply _ => None
  end.

(** The stations of a body, when it has some. *)
Definition stations_of (res : Bridge.Response) : option (list Bridge.json) :=
  match Bridge.field "stations" (Bridge.body res) with
  | Some (Bridge.JArray l) => Some l
  | _ => None
  end.

(** A number that is neither [NaN] nor an infinity. *)
Definition finite (x : JS.number) : bool :=
  match x with
  | JS.Fin _ => true
  | _ => false
  end.

(** A station on the map: a latitude that is not zero and at most 90
    degrees either way, a longitude of at most 180 degrees either way. *)
Definition on_the_map (s : Geolocation.Station) : Prop :=
  exists a b : R,
    Geolocation.latitude s = JS.Num (JS.Fin a)
    /\ Geolocation.longitude s = JS.Num (JS.Fin b)
    /\ a <> 0 /\ Rabs a <= 90 /\ Rabs b <= 180.

(** A sample within [tolerance] degrees of a station, in latitude and in
    longitude. *)
Definition near_station (tolerance : R) (p : Geolocation.Position)
  (s : Geolocation.Station) : Prop :=
  exists a b la lo : R,
    Geolocation.latitude s = JS.Num (JS.Fin a)
    /\ Geolocation.longitude s = JS.Num (JS.Fin b)
    /\ Geolocation.lat p = JS.Fin la
    /\ Geolocation.lon p = JS.Fin lo
    /\ Rabs (la - a) <= tolerance
    /\ Rabs (lo - b) <= tolerance.

End Notions.

(** * Properties *)

(** ** Comparisons of reals as booleans *)

Lemma Rleb_true (a b : R) : JS.Rleb a b = true <-> a <= b.
Proof.
  unfold JS.Rleb; destruct (Rle_dec a b); split; intros; try easy.
Qed.

Lemma Rleb_false (a b : R) : JS.Rleb a b = false <-> b < a.
Proof.
  unfold JS.Rleb; destruct (Rle_dec a b); split; intros; try easy; lra.
Qed.

Lemma Rltb_true (a b : R) : JS.Rltb a b = true <-> a < b.
Proof.
  unfold JS.Rltb; destruct (Rlt_dec a b); split; intros; try easy.
Qed.

Lemma Rltb_false (a b : R) : JS.Rltb a b = false <-> b <= a.
Proof.
  unfold JS.Rltb; destruct (Rlt_dec a b); split; intros; try easy; lra.
Qed.

Lemma Reqb_true (a b : R) : JS.Reqb a b = true <-> a = b.
Proof.
  unfold JS.Reqb; destruct (Req_dec_T a b); split; intros; try easy.
Qed.

Lemma Reqb_false (a b : R) : JS.Reqb a b = false <-> a <> b.
Proof.
  unfold JS.Reqb; destruct (Req_dec_T a b); split; intros; try easy.
Qed.

(** Decides a boolean comparison of two reals that [lra] can settle. *)
Ltac Rbool :=
  repeat match goal with
  | |- context [JS.Rleb ?a ?b] =>
      let H := fresh in
      first [ assert (H : JS.Rleb a b = true) by (apply Rleb_true; lra)
            | assert (H : JS.Rleb a b = false) by (apply Rleb_false; lra) ];
      rewrite H; clear H
  | |- context [JS.Rltb ?a ?b] =>
      let H := fresh in
      first [ assert (H : JS.Rltb a b = true) by (apply Rltb_true; lra)
            | assert (H : JS.Rltb a b = false) by (apply Rltb_false; lra) ];
      rewrite H; clear H
  | |- context [JS.Reqb ?a ?b] =>
      let H := fresh in
      first [ assert (H : JS.Reqb a b = true) by (apply Reqb_true; lra)
            | assert (H : JS.Reqb a b = false) by (apply Reqb_false; lra) ];
      rewrite H; clear H
  end.

(** ** The alarm rule *)

Section AlarmRule.
Import JS DistanceCalc Spec.

(** C1.  For every pair of distances, [getAlarmState] is the state the
    four-way priority rule gives (2 km to the destination: alarm; else 0.5 km
    to the previous station: pre-alert; else 15 km to the destination:
    approaching; else safe), and the rule gives no other state: every pair
    of distances has exactly one state. *)
Theorem getAlarmState_priority_rule (distToDestKm distToPrevKm : number) :
  priority_rule distToDestKm distToPrevKm
    (getAlarmState distToDestKm distToPrevKm)
  /\ (forall s, priority_rule distToDestKm distToPrevKm s ->
                s = getAlarmState distToDestKm distToPrevKm).
Proof.
  unfold getAlarmState.
  destruct (le distToDestKm (Fin 2)) eqn:Halarm;
    [ | destruct (le distToPrevKm (Fin 0.5)) eqn:Hpre;
        [ | destruct (le distToDestKm (Fin 15)) eqn:Happroach ] ];
    (split; [ now constructor | ]);
    intros s Hs; inversion Hs; congruence.
Qed.

(** Within 2 km of the destination the state is alarm, whatever the
    distance to the previous station. *)
Lemma getAlarmState_alarm (d : R) (p : number) :
  d <= 2 -> getAlarmState (Fin d) p = alarm.
Proof.
  intros Hd; unfold getAlarmState; cbn [le]; now Rbool.
Qed.

(** Beyond 2 km, within 0.5 km of the previous station: pre-alert. *)
Lemma getAlarmState_pre_alert (d p : R) :
  2 < d -> p <= 0.5 -> getAlarmState (Fin d) (Fin p) = pre_alert.
Proof.
  intros Hd Hp; unfold getAlarmState; cbn [le]; now Rbool.
Qed.

(** Between 2 and 15 km, beyond 0.5 km of the previous station:
    approaching. *)
Lemma getAlarmState_approaching (d p : R) :
  2 < d <= 15 -> 0.5 < p -> getAlarmState (Fin d) (Fin p) = approaching.
Proof.
  intros Hd Hp; unfold getAlarmState; cbn [le]; now Rbool.
Qed.

(** Beyond 15 km and beyond 0.5 km of the previous station: safe. *)
Lemma getAlarmState_safe (d p : R) :
  15 < d -> 0.5 < p -> getAlarmState (Fin d) (Fin p) = safe.
Proof.
  intros Hd Hp; unfold getAlarmState; cbn [le]; now Rbool.
Qed.

(** A distance that is not a number compares false with every threshold. *)
Lemma getAlarmState_NaN : getAlarmState NaN NaN = safe.
Proof. reflexivity. Qed.

Example getAlarmState_1500m : getAlarmState (Fin 1.5) (Fin 0.2) = alarm.
Proof. apply getAlarmState_alarm; lra. Qed.

Example getAlarmState_leaving_previous :
  getAlarmState (Fin 9) (Fin 0.4) = pre_alert.
Proof. apply getAlarmState_pre_alert; lra. Qed.

Example getAlarmState_15km : getAlarmState (Fin 15) (Fin 7) = approaching.
Proof. apply getAlarmState_approaching; lra. Qed.

Example getAlarmState_far : getAlarmState (Fin 152.65) (Fin 40) = safe.
Proof. apply getAlarmState_safe; lra. Qed.

(** Beyond 15 km of the destination the state is still pre-alert within
    0.5 km of the previous station: the second rule comes before the
    third and the fourth. *)
Example getAlarmState_far_pre_alert :
  getAlarmState (Fin 20) (Fin 0.4) = pre_alert.
Proof. apply getAlarmState_pre_alert; lra. Qed.

End AlarmRule.

(** ** Missing coordinates *)

Section MissingCoordinate.
Import JS DistanceCalc.

Lemma calculateDistance_missing (lat1 lon1 lat2 lon2 : value) :
  eq_null lat1 = true \/ eq_null lon1 = true \/
  eq_null lat2 = true \/ eq_null lon2 = true ->
  calculateDistance lat1 lon1 lat2 lon2 = PosInf.
Proof.
  intros H; unfold calculateDistance.
  destruct (eq_null lat1), (eq_null lon1), (eq_null lat2), (eq_null lon2);
    cbn [orb]; try reflexivity.
  destruct H as [H | [H | [H | H]]]; discriminate H.
Qed.

Lemma getAlarmState_infinite_destination (p : number) :
  getAlarmState PosInf p = if le p (Fin 0.5) then pre_alert else safe.
Proof. reflexivity. Qed.

Lemma getAlarmState_infinite_previous (d : number) :
  getAlarmState d PosInf =
  if le d (Fin 2) then alarm
  else if le d (Fin 15) then approaching else safe.
Proof.
  unfold getAlarmState. now destruct (le d (Fin 2)).
Qed.

(** C2, as stated, fails.  With the coordinates of the destination missing
    the distance to it is infinite, yet 300 m from the previous station the
    state is pre-alert; with those of the previous station missing, 1 km
    from the destination the state is alarm. *)
Lemma infinite_distance_not_always_safe :
  getAlarmState
    (calculateDistance (Num (Fin 11.9393)) (Num (Fin 79.4924)) Null Null)
    (Fin 0.3) = pre_alert
  /\ getAlarmState
       (Fin 1)
       (calculateDistance (Num (Fin 11.9393)) (Num (Fin 79.4924))
                          Undefined Undefined) = alarm.
Proof.
  split.
  - cbn [calculateDistance eq_null orb]. unfold getAlarmState.
    cbn [le]. now Rbool.
  - cbn [calculateDistance eq_null orb]. unfold getAlarmState.
    cbn [le]. now Rbool.
Qed.

(** C2, amended.  With a coordinate missing ([null] or [undefined]) the
    distance is [Infinity].  As the distance to the destination it never
    gives alarm or approaching: the state is pre-alert within 0.5 km of the
    previous station and safe otherwise.  As the distance to the previous
    station it never gives pre-alert: the distance to the destination alone
    decides.  With both distances infinite the state is safe. *)
Theorem missing_coordinate_infinite_distance (lat1 lon1 lat2 lon2 : value) :
  eq_null lat1 = true \/ eq_null lon1 = true \/
  eq_null lat2 = true \/ eq_null lon2 = true ->
  let d := calculateDistance lat1 lon1 lat2 lon2 in
  d = PosInf
  /\ (forall distToPrevKm,
        getAlarmState d distToPrevKm =
        if le distToPrevKm (Fin 0.5) then pre_alert else safe)
  /\ (forall distToDestKm,
        getAlarmState distToDestKm d =
        if le distToDestKm (Fin 2) then alarm
        else if le distToDestKm (Fin 15) then approaching else safe)
  /\ getAlarmState d d = safe.
Proof.
  intros H d. subst d. rewrite (calculateDistance_missing _ _ _ _ H).
  split; [ reflexivity | ].
  split; [ exact getAlarmState_infinite_destination | ].
  split; [ exact getAlarmState_infinite_previous | reflexivity ].
Qed.

Lemma missing_coordinate_infinite_distance_witness :
  let d := calculateDistance (Num (Fin 13.0827)) Null
                             (Num (Fin 11.9393)) (Num (Fin 79.4924)) in
  d = PosInf
  /\ (forall distToPrevKm,
        getAlarmState d distToPrevKm =
        if le distToPrevKm (Fin 0.5) then pre_alert else safe)
  /\ (forall distToDestKm,
        getAlarmState distToDestKm d =
        if le distToDestKm (Fin 2) then alarm
        else if le distToDestKm (Fin 15) then approaching else safe)
  /\ getAlarmState d d = safe.
Proof.
  apply (missing_coordinate_infinite_distance
           (Num (Fin 13.0827)) Null (Num (Fin 11.9393)) (Num (Fin 79.4924))).
  right; left; reflexivity.
Defined.

End MissingCoordinate.

(** ** The accuracy policy of the live source *)

Section AccuracyPolicy.
Import JS Geolocation.

Lemma currentOptions_startWatching (v : value) (nav : Navigator) (h : GeoHook) :
  geolocation nav = true ->
  currentOptions (startWatching v (nav, h)) =
  Some (if lt (ToNumber v) (Fin 50)
        then HIGH_ACCURACY_OPTIONS else LOW_ACCURACY_OPTIONS).
Proof.
  intros Hgeo. unfold startWatching. rewrite Hgeo. cbn [negb].
  unfold currentOptions, watchPosition.
  cbn [snd fst watchIdRef watches find].
  now rewrite Nat.eqb_refl.
Qed.

Lemma geolocation_stopWatching (s : Navigator * GeoHook) :
  geolocation (fst (stopWatching s)) = geolocation (fst s).
Proof.
  destruct s as [nav h]. unfold stopWatching.
  now destruct (watchIdRef h).
Qed.

(** C4.  Where the browser has geolocation, the watch the tracking hook
    holds was requested with the high-accuracy options (accuracy on,
    timeout 10000 ms, maximum age 5000 ms) exactly when the distance to the
    destination is below 50, and with the low-accuracy options (accuracy
    off, timeout 30000 ms, maximum age 60000 ms) otherwise. *)
Theorem useGeolocation_adaptive_accuracy
  (distanceToDestKm : number) (nav : Navigator) (h : GeoHook) :
  geolocation nav = true ->
  exists options,
    currentOptions (useGeolocation (Num distanceToDestKm) true (nav, h))
    = Some options
    /\ (lt distanceToDestKm (Fin 50) = true <->
        options = {| enableHighAccuracy := true;
                     timeout := 10000; maximumAge := 5000 |})
    /\ (lt distanceToDestKm (Fin 50) = false <->
        options = {| enableHighAccuracy := false;
                     timeout := 30000; maximumAge := 60000 |}).
Proof.
  intros Hgeo. unfold useGeolocation. cbn [distanceToDestKm_default].
  destruct (stopWatching (nav, h)) as [nav' h'] eqn:Hstop.
  assert (Hgeo' : geolocation nav' = true).
  { pose proof (geolocation_stopWatching (nav, h)) as E.
    rewrite Hstop in E. cbn [fst] in E. congruence. }
  rewrite (currentOptions_startWatching _ _ _ Hgeo'). cbn [ToNumber].
  eexists; split; [ reflexivity | ].
  destruct (lt distanceToDestKm (Fin 50));
    unfold HIGH_ACCURACY_OPTIONS, LOW_ACCURACY_OPTIONS;
    repeat split; intros; congruence.
Qed.

Lemma useGeolocation_adaptive_accuracy_witness :
  exists options,
    currentOptions
      (useGeolocation (Num (Fin 12)) true
         ({| geolocation := true; watches := []; nextWatchId := 1 |},
          {| watchIdRef := None; error := None |}))
    = Some options
    /\ (lt (Fin 12) (Fin 50) = true <->
        options = {| enableHighAccuracy := true;
                     timeout := 10000; maximumAge := 5000 |})
    /\ (lt (Fin 12) (Fin 50) = false <->
        options = {| enableHighAccuracy := false;
                     timeout := 30000; maximumAge := 60000 |}).
Proof.
  apply (useGeolocation_adaptive_accuracy (Fin 12)
           {| geolocation := true; watches := []; nextWatchId := 1 |}
           {| watchIdRef := None; error := None |}).
  reflexivity.
Defined.

(** Below 50 km the options are the high-accuracy ones; at 50 km and beyond,
    at an infinite distance and without a distance, the low-accuracy ones. *)
Lemma useGeolocation_finite (r : R) (nav : Navigator) (h : GeoHook) :
  geolocation nav = true ->
  currentOptions (useGeolocation (Num (Fin r)) true (nav, h)) =
  Some (if Rlt_dec r 50 then HIGH_ACCURACY_OPTIONS else LOW_ACCURACY_OPTIONS).
Proof.
  intros Hgeo. unfold useGeolocation. cbn [distanceToDestKm_default].
  destruct (stopWatching (nav, h)) as [nav' h'] eqn:Hstop.
  assert (Hgeo' : geolocation nav' = true).
  { pose proof (geolocation_stopWatching (nav, h)) as E.
    rewrite Hstop in E. cbn [fst] in E. congruence. }
  rewrite (currentOptions_startWatching _ _ _ Hgeo').
  cbn [ToNumber lt]. unfold Rltb. now destruct (Rlt_dec r 50).
Qed.

Lemma useGeolocation_default (nav : Navigator) (h : GeoHook) :
  geolocation nav = true ->
  currentOptions (useGeolocation Undefined true (nav, h)) =
  Some LOW_ACCURACY_OPTIONS.
Proof.
  intros Hgeo. unfold useGeolocation. cbn [distanceToDestKm_default].
  destruct (stopWatching (nav, h)) as [nav' h'] eqn:Hstop.
  assert (Hgeo' : geolocation nav' = true).
  { pose proof (geolocation_stopWatching (nav, h)) as E.
    rewrite Hstop in E. cbn [fst] in E. congruence. }
  now rewrite (currentOptions_startWatching _ _ _ Hgeo').
Qed.

End AccuracyPolicy.

(** ** The simulated source *)

Section SimulatedPlayback.
Import JS Geolocation Spec.

Lemma INR_STEPS_PER_SEGMENT : INR STEPS_PER_SEGMENT = 100.
Proof.
  unfold STEPS_PER_SEGMENT. rewrite INR_IZR_INZ. reflexivity.
Qed.

(** At the speed 200, which is the default, the interval has a period of
    25 ms. *)
Lemma startSimulation_period (stations : list Station) :
  (2 <= List.length stations)%nat ->
  startSimulation (Some stations) true (Num (Fin 200))
    = Some (Fin 25, initialTimer)
  /\ startSimulation (Some stations) true Undefined
      = Some (Fin 25, initialTimer).
Proof.
  intros Hlen. unfold startSimulation.
  assert (Hlt : (List.length stations <? 2)%nat = false)
    by (apply Nat.ltb_ge; lia).
  rewrite Hlt.
  cbn [negb orb speedMultiplier_default ToNumber INTERVAL_MS div].
  Rbool. fold initialTimer.
  replace (5000 / 200) with 25 by lra. now split.
Qed.

(** The counters do not depend on the clock. *)
Lemma tick_timer_clock (stations : list Station) (now now' : Z) (tm : SimTimer) :
  fst (tick stations now tm) = fst (tick stations now' tm).
Proof.
  unfold tick.
  repeat match goal with
         | |- context [if ?b then _ else _] => destruct b
         end; reflexivity.
Qed.

(** The [q]-th firing, as long as the interval is installed. *)
Lemma firings_nth_error (stations : list Station) (clock : nat -> Z) :
  forall (n i : nat) (tm : SimTimer) (q : nat),
    (q < n)%nat ->
    (forall q', (q' <= q)%nat -> installed (timer_after stations q' tm) = true) ->
    nth_error (firings stations clock i n tm) q =
    Some (snd (tick stations (clock (i + q)%nat) (timer_after stations q tm))).
Proof.
  induction n as [ | n IH]; intros i tm q Hq Hinst; [ lia | ].
  cbn [firings].
  pose proof (Hinst 0%nat (Nat.le_0_l q)) as H0. cbn in H0. rewrite H0.
  destruct (tick stations (clock i) tm) as [tm' r] eqn:Htick.
  destruct q as [ | q].
  - cbn. rewrite Nat.add_0_r, Htick. reflexivity.
  - cbn [nth_error].
    assert (Htm' : tm' = fst (tick stations 0 tm)).
    { rewrite (tick_timer_clock stations 0 (clock i)), Htick. reflexivity. }
    rewrite (IH (S i) tm' q) by
      (first [ lia
             | intros q' Hq'; specialize (Hinst (S q') ltac:(lia));
               unfold timer_after in *; rewrite Nat.iter_succ_r in Hinst;
               now rewrite Htm' ]).
    unfold timer_after. rewrite Nat.iter_succ_r, <- Htm'.
    now replace (i + S q)%nat with (S i + q)%nat by lia.
Qed.

(** The interval fires until it is cleared, and no more. *)
Lemma firings_length (stations : list Station) (clock : nat -> Z) :
  forall (n i : nat) (tm : SimTimer) (c : nat),
    (c < n)%nat ->
    (forall q, (q <= c)%nat -> installed (timer_after stations q tm) = true) ->
    installed (timer_after stations (S c) tm) = false ->
    List.length (firings stations clock i n tm) = S c.
Proof.
  induction n as [ | n IH]; intros i tm c Hc Hinst Hstop; [ lia | ].
  cbn [firings].
  pose proof (Hinst 0%nat (Nat.le_0_l c)) as H0. cbn in H0. rewrite H0.
  destruct (tick stations (clock i) tm) as [tm' r] eqn:Htick.
  assert (Htm' : tm' = fst (tick stations 0 tm)).
  { rewrite (tick_timer_clock stations 0 (clock i)), Htick. reflexivity. }
  cbn [List.length]. f_equal.
  destruct c as [ | c].
  - unfold timer_after in Hstop. cbn in Hstop. rewrite <- Htm' in Hstop.
    destruct n; cbn [firings]; [ reflexivity | now rewrite Hstop ].
  - apply IH; [ lia | | ].
    + intros q Hq. specialize (Hinst (S q) ltac:(lia)).
      unfold timer_after in *. rewrite Nat.iter_succ_r in Hinst.
      now rewrite Htm'.
    + unfold timer_after in *. rewrite Nat.iter_succ_r in Hstop.
      now rewrite Htm'.
Qed.

(** One firing inside a segment between two stations that are not
    skipped. *)
Lemma tick_sample (stations : list Station) (now : Z) (k j : nat)
  (a b a' b' : R) :
  (k + 1 < List.length stations)%nat ->
  nth k stations undefinedStation =
    {| latitude := Num (Fin a); longitude := Num (Fin b) |} ->
  nth (k + 1) stations undefinedStation =
    {| latitude := Num (Fin a'); longitude := Num (Fin b') |} ->
  a <> 0 -> a' <> 0 -> (j <= 100)%nat ->
  tick stations now {| seg := k; step := j; installed := true |} =
  ({| seg := if (j =? 100)%nat then S k else k;
      step := if (j =? 100)%nat then 0 else S j;
      installed := true |},
   Emitted {| lat := Fin (a + (a' - a) * (INR j / 100));
              lon := Fin (b + (b' - b) * (INR j / 100));
              timestamp := now |}
           k (Fin (INR j / 100))).
Proof.
  intros Hk Hfrom Hto Ha Ha' Hj. unfold tick. cbn [seg step installed].
  assert (Hseg : (Z.of_nat (List.length stations) - 1 <=? Z.of_nat k)%Z = false)
    by (apply Z.leb_gt; lia).
  rewrite Hseg, Hfrom, Hto. cbn [latitude longitude truthy ToNumber].
  assert (Hz : Reqb a 0 = false) by now apply Reqb_false.
  assert (Hz' : Reqb a' 0 = false) by now apply Reqb_false.
  rewrite Hz, Hz'. cbn [negb orb].
  unfold div, sub, neg, add, mul. rewrite INR_STEPS_PER_SEGMENT.
  assert (H100 : Reqb 100 0 = false) by (apply Reqb_false; lra).
  rewrite H100. unfold STEPS_PER_SEGMENT.
  destruct (Nat.eqb_spec j 100) as [Heq | Hne].
  - assert (Hlt : (100 <? S j)%nat = true) by (apply Nat.ltb_lt; lia).
    rewrite Hlt. reflexivity.
  - assert (Hlt : (100 <? S j)%nat = false) by (apply Nat.ltb_ge; lia).
    rewrite Hlt. reflexivity.
Qed.

Lemma truthy_station_nth (stations : list Station) (k : nat) :
  Forall truthy_station stations ->
  (k < List.length stations)%nat ->
  exists a b : R,
    nth k stations undefinedStation =
      {| latitude := Num (Fin a); longitude := Num (Fin b) |}
    /\ a <> 0.
Proof.
  intros Hall Hk.
  pose proof (proj1 (Forall_forall _ _) Hall _ (nth_In _ undefinedStation Hk))
    as [[a [b [Hlat Hlon]]] Htruthy].
  exists a, b. split.
  - destruct (nth k stations undefinedStation) as [la lo].
    cbn in Hlat, Hlon. now subst.
  - rewrite Hlat in Htruthy. cbn in Htruthy.
    apply Bool.negb_true_iff in Htruthy. now apply Reqb_false.
Qed.

(** On a route without skipped stations, firing [101 * k + j] finds the
    callback in segment [k] at step [j]. *)
Lemma timer_after_truthy_route (stations : list Station) :
  Forall truthy_station stations ->
  forall k : nat,
    (k < List.length stations)%nat ->
    timer_after stations (101 * k) initialTimer =
      {| seg := k; step := 0; installed := true |}
    /\ ((k + 1 < List.length stations)%nat ->
        forall j : nat, (j <= 100)%nat ->
          timer_after stations (101 * k + j) initialTimer =
            {| seg := k; step := j; installed := true |}).
Proof.
  intros Hall.
  assert (Hstep : forall k j,
             (k + 1 < List.length stations)%nat -> (j <= 100)%nat ->
             timer_after stations (101 * k + j) initialTimer =
               {| seg := k; step := j; installed := true |} ->
             timer_after stations (S (101 * k + j)) initialTimer =
               {| seg := if (j =? 100)%nat then S k else k;
                  step := if (j =? 100)%nat then 0 else S j;
                  installed := true |}).
  { intros k j Hk Hj Hq. unfold timer_after in *.
    rewrite Nat.iter_succ, Hq.
    destruct (truthy_station_nth stations k Hall ltac:(lia))
      as [a [b [Hfrom Ha]]].
    destruct (truthy_station_nth stations (k + 1) Hall ltac:(lia))
      as [a' [b' [Hto Ha']]].
    now rewrite (tick_sample stations 0 k j a b a' b' Hk Hfrom Hto Ha Ha' Hj). }
  assert (Hsegment : forall k,
             (k + 1 < List.length stations)%nat ->
             timer_after stations (101 * k) initialTimer =
               {| seg := k; step := 0; installed := true |} ->
             forall j, (j <= 100)%nat ->
               timer_after stations (101 * k + j) initialTimer =
                 {| seg := k; step := j; installed := true |}).
  { intros k Hk H0. induction j as [ | j IHj]; intros Hj.
    - now rewrite Nat.add_0_r.
    - replace (101 * k + S j)%nat with (S (101 * k + j)) by lia.
      rewrite (Hstep k j Hk ltac:(lia) (IHj ltac:(lia))).
      assert (Hne : (j =? 100)%nat = false) by (apply Nat.eqb_neq; lia).
      now rewrite Hne. }
  induction k as [ | k IHk]; intros Hk.
  - split; [ reflexivity | ]. intros Hk1. now apply Hsegment.
  - destruct (IHk ltac:(lia)) as [_ IHseg].
    assert (H0 : timer_after stations (101 * S k) initialTimer =
                 {| seg := S k; step := 0; installed := true |}).
    { replace (101 * S k)%nat with (S (101 * k + 100)) by lia.
      rewrite (Hstep k 100%nat ltac:(lia) ltac:(lia)
                 (IHseg ltac:(lia) 100%nat ltac:(lia))).
      reflexivity. }
    split; [ exact H0 | ]. intros Hk1. now apply Hsegment.
Qed.

(** On such a route the interval is installed up to and including the
    firing that follows the last segment. *)
Lemma installed_truthy_route (stations : list Station) (q : nat) :
  Forall truthy_station stations ->
  (1 <= List.length stations)%nat ->
  (q <= 101 * (List.length stations - 1))%nat ->
  installed (timer_after stations q initialTimer) = true.
Proof.
  intros Hall Hlen Hq.
  pose proof (Nat.div_mod_eq q 101) as Hdm.
  pose proof (Nat.mod_upper_bound q 101 ltac:(lia)) as Hmod.
  destruct (Nat.eq_dec (q / 101) (List.length stations - 1)) as [Hlast | Hin].
  - assert (Hq0 : q = (101 * (List.length stations - 1))%nat) by lia.
    destruct (timer_after_truthy_route stations Hall
                (List.length stations - 1) ltac:(lia)) as [H0 _].
    now rewrite Hq0, H0.
  - destruct (timer_after_truthy_route stations Hall (q / 101) ltac:(lia))
      as [_ Hseg].
    rewrite Hdm, (Hseg ltac:(lia) (q mod 101)%nat ltac:(lia)). reflexivity.
Qed.

(** Firing [101 * k + j] emits the point at [j] hundredths of segment [k]. *)
Lemma firing_truthy_route (stations : list Station) (clock : nat -> Z)
  (n k j : nat) (a b a' b' : R) :
  Forall truthy_station stations ->
  (k + 1 < List.length stations)%nat -> (j <= 100)%nat ->
  (101 * k + j < n)%nat ->
  nth k stations undefinedStation =
    {| latitude := Num (Fin a); longitude := Num (Fin b) |} ->
  nth (k + 1) stations undefinedStation =
    {| latitude := Num (Fin a'); longitude := Num (Fin b') |} ->
  a <> 0 -> a' <> 0 ->
  nth_error (firings stations clock 0 n initialTimer) (101 * k + j) =
  Some (Emitted {| lat := Fin (a + (a' - a) * (INR j / 100));
                   lon := Fin (b + (b' - b) * (INR j / 100));
                   timestamp := clock (101 * k + j)%nat |}
                k (Fin (INR j / 100))).
Proof.
  intros Hall Hk Hj Hn Hfrom Hto Ha Ha'.
  rewrite firings_nth_error; [ | exact Hn | ].
  - destruct (timer_after_truthy_route stations Hall k ltac:(lia)) as [_ Hseg].
    rewrite (Hseg Hk j Hj).
    rewrite (tick_sample stations _ k j a b a' b' Hk Hfrom Hto Ha Ha' Hj).
    reflexivity.
  - intros q' Hq'. apply installed_truthy_route; [ exact Hall | lia | nia ].
Qed.

(** The firing after the last segment clears the interval. *)
Lemma tick_cleared (stations : list Station) (now : Z) (k j : nat) :
  (List.length stations <= k + 1)%nat ->
  tick stations now {| seg := k; step := j; installed := true |} =
  ({| seg := k; step := j; installed := false |}, Cleared).
Proof.
  intros Hk. unfold tick. cbn [seg step].
  assert (Hseg : (Z.of_nat (List.length stations) - 1 <=? Z.of_nat k)%Z = true)
    by (apply Z.leb_le; lia).
  now rewrite Hseg.
Qed.

(** A firing between two stations one of which has a falsy latitude moves on
    to the next segment without a sample. *)
Lemma tick_skipped (stations : list Station) (now : Z) (k j : nat) :
  (k + 1 < List.length stations)%nat ->
  truthy (latitude (nth k stations undefinedStation)) = false
  \/ truthy (latitude (nth (k + 1) stations undefinedStation)) = false ->
  tick stations now {| seg := k; step := j; installed := true |} =
  ({| seg := S k; step := 0; installed := true |}, Skipped).
Proof.
  intros Hk Hfalsy. unfold tick. cbn [seg step installed].
  assert (Hseg : (Z.of_nat (List.length stations) - 1 <=? Z.of_nat k)%Z = false)
    by (apply Z.leb_gt; lia).
  rewrite Hseg.
  destruct Hfalsy as [H | H]; rewrite H; cbn [negb orb];
    [ reflexivity | now rewrite Bool.orb_true_r ].
Qed.

(** On a route without a falsy latitude the interval fires [101] times per
    segment and once more, the last firing clearing it. *)
Lemma firings_truthy_route_end (stations : list Station) (clock : nat -> Z)
  (n : nat) :
  (2 <= List.length stations)%nat ->
  Forall truthy_station stations ->
  (101 * (List.length stations - 1) < n)%nat ->
  List.length (firings stations clock 0 n initialTimer)
    = (101 * (List.length stations - 1) + 1)%nat
  /\ nth_error (firings stations clock 0 n initialTimer)
               (101 * (List.length stations - 1)) = Some Cleared.
Proof.
  intros Hlen Hall Hn.
  assert (Hinst : forall q, (q <= 101 * (List.length stations - 1))%nat ->
                    installed (timer_after stations q initialTimer) = true)
    by (intros q Hq; apply installed_truthy_route; [ exact Hall | lia | exact Hq ]).
  destruct (timer_after_truthy_route stations Hall
              (List.length stations - 1) ltac:(lia)) as [Hend _].
  split.
  - rewrite (firings_length stations clock n 0 initialTimer
               (101 * (List.length stations - 1))); [ lia | exact Hn | exact Hinst | ].
    unfold timer_after in *. rewrite Nat.iter_succ, Hend.
    now rewrite tick_cleared by lia.
  - rewrite firings_nth_error; [ | exact Hn | exact Hinst ].
    rewrite Hend. now rewrite tick_cleared by lia.
Qed.

(** C3 at a station on the equator.  A latitude of zero is present but
    falsy: the callback skips the segment and clears the interval at the
    next firing, so that no sample is emitted at all, neither at the
    coordinates of the second station nor anywhere else. *)
Theorem simulated_playback_zero_latitude
  (speedMultiplier : value) (clock : nat -> Z) (n : nat) :
  let stations :=
    [ {| latitude := Num (Fin 0); longitude := Num (Fin 78.45) |};
      {| latitude := Num (Fin 0.5); longitude := Num (Fin 78.5) |} ] in
  Forall present stations
  /\ useSimulatedGeolocation (Some stations) true speedMultiplier clock (S (S n))
     = [Skipped; Cleared]
  /\ samples (useSimulatedGeolocation (Some stations) true speedMultiplier clock (S (S n))) = [].
Proof.
  intros stations.
  assert (Hrun : useSimulatedGeolocation (Some stations) true speedMultiplier clock (S (S n))
                 = [Skipped; Cleared]).
  { unfold useSimulatedGeolocation, startSimulation. subst stations.
    cbn [List.length Nat.ltb Nat.leb negb orb firings installed].
    rewrite tick_skipped;
      [ | cbn; lia | left; cbn [nth latitude truthy]; now Rbool ].
    destruct n; cbn [firings installed]; now rewrite tick_cleared by (cbn; lia). }
  split; [ | split ].
  - repeat constructor; [ now exists 0, 78.45 | now exists 0.5, 78.5 ].
  - exact Hrun.
  - now rewrite Hrun.
Qed.

End SimulatedPlayback.

(** ** The bridge *)

Section TrainNumber.
Import Bridge Spec.
Open Scope string_scope.

Lemma is_digit_spec (c : ascii) : is_digit c = true <-> decimal_digit c.
Proof.
  unfold is_digit, decimal_digit. split.
  - intros H. apply Bool.andb_true_iff in H as [Hlo Hhi].
    apply Nat.leb_le in Hlo, Hhi.
    rewrite <- (ascii_nat_embedding c).
    assert (Hn : (nat_of_ascii c = 48 \/ nat_of_ascii c = 49
                  \/ nat_of_ascii c = 50 \/ nat_of_ascii c = 51
                  \/ nat_of_ascii c = 52 \/ nat_of_ascii c = 53
                  \/ nat_of_ascii c = 54 \/ nat_of_ascii c = 55
                  \/ nat_of_ascii c = 56 \/ nat_of_ascii c = 57)%nat) by lia.
    repeat (destruct Hn as [Hn | Hn]; [ rewrite Hn; cbn; tauto | ]).
    rewrite Hn; cbn; tauto.
  - intros H. cbn in H.
    repeat (destruct H as [H | H]; [ now subst c | ]).
    contradiction.
Qed.

(** The test of the handlers accepts the strings of five decimal digits and
    no other. *)
Lemma test_five_digits_spec (s : string) :
  test_five_digits s = true <-> five_decimal_digits s.
Proof.
  unfold test_five_digits, five_decimal_digits. split.
  - intros H. apply Bool.andb_true_iff in H as [Hlen Hall].
    destruct s as [ | a [ | b [ | c [ | d [ | e [ | f s]]]]]];
      try discriminate Hlen.
    exists a, b, c, d, e. split; [ reflexivity | ].
    cbn [list_ascii_of_string forallb] in Hall.
    repeat (apply Bool.andb_true_iff in Hall as [?H Hall]).
    repeat (constructor; [ now apply is_digit_spec | ]). constructor.
  - intros [a [b [c [d [e [Hs Hall]]]]]]. subst s.
    cbn [String.length Nat.eqb andb list_ascii_of_string forallb].
    repeat match goal with
           | H : Forall _ (_ :: _) |- _ => inversion H; subst; clear H
           end.
    repeat (rewrite (proj2 (is_digit_spec _)) by assumption).
    reflexivity.
Qed.

(** C5.  For every train number that is not a string of exactly five decimal
    digits, each of the two train-status handlers answers at once, with
    status 400 and an error message; no request goes to the provider. *)
Theorem malformed_train_number_rejected (SCRAPER_URL now trainNo : string) :
  ~ five_decimal_digits trainNo ->
  api_train SCRAPER_URL now trainNo =
    Reply {| status := 400;
             body := JObject
               [("error", JString "Invalid train number. Must be 5 digits.")] |}
  /\ router_train trainNo =
    Reply {| status := 400;
             body := JObject
               [("error", JString "Invalid train number. Must be 5 digits.")] |}.
Proof.
  intros Hbad.
  assert (Htest : test_five_digits trainNo = false).
  { destruct (test_five_digits trainNo) eqn:E; [ | reflexivity ].
    now apply test_five_digits_spec in E. }
  unfold api_train, router_train. now rewrite Htest.
Qed.

Lemma malformed_train_number_rejected_witness :
  ~ five_decimal_digits "1204A"
  /\ api_train "http://localhost:8000" "2024-01-01T00:00:00.000Z" "1204A" =
       Reply {| status := 400;
                body := JObject
                  [("error", JString "Invalid train number. Must be 5 digits.")] |}
  /\ router_train "1204A" =
       Reply {| status := 400;
                body := JObject
                  [("error", JString "Invalid train number. Must be 5 digits.")] |}.
Proof.
  assert (Hbad : ~ five_decimal_digits "1204A").
  { intros H. apply test_five_digits_spec in H. discriminate H. }
  split; [ exact Hbad | ].
  apply (malformed_train_number_rejected
           "http://localhost:8000" "2024-01-01T00:00:00.000Z" "1204A" Hbad).
Defined.

(** A train number of five digits is passed on to the provider. *)
Lemma wellformed_train_number_forwarded (SCRAPER_URL now trainNo : string) :
  five_decimal_digits trainNo ->
  exists answer,
    api_train SCRAPER_URL now trainNo =
    Upstream (SCRAPER_URL ++ "/train/" ++ trainNo) (Some 15000%Z) answer.
Proof.
  intros Hgood. apply test_five_digits_spec in Hgood.
  unfold api_train. rewrite Hgood. cbn [negb]. eexists. reflexivity.
Qed.

End TrainNumber.

Section DemoRoute.
Import Bridge Spec.
Open Scope string_scope.

(** C6.  For every train number the demo handler answers at once, with
    status 200 and a success body that carries the train number and the
    fixed route of 14 stations from Chennai Central to Kanyakumari, the same
    for every train number; each station has its sequence index, a name, a
    code and both coordinates. *)
Theorem demo_route_always_succeeds (now trainNo : string) :
  exists stations : list json,
    api_demo now trainNo =
      Reply {| status := 200;
               body := JObject
                 [("success", JBool true);
                  ("trainNumber", JString trainNo);
                  ("trainName",
                   JString ("Chennai Kanyakumari Cape Express (" ++ trainNo ++ ")"));
                  ("lastUpdated", JString now);
                  ("stations", JArray stations);
                  ("isDemo", JBool true)] |}
    /\ stations = generateMockRoute EmptyString
    /\ List.length stations = 14%nat
    /\ (forall i : nat, (i < 14)%nat -> station_object i (nth i stations JNull))
    /\ field "name" (nth 0 stations JNull) = Some (JString "Chennai Central")
    /\ field "name" (nth 13 stations JNull) = Some (JString "Kanyakumari").
Proof.
  exists (generateMockRoute trainNo).
  split; [ reflexivity | ].
  split; [ reflexivity | ].
  split; [ reflexivity | ].
  split; [ | split; reflexivity ].
  intros i Hi. unfold station_object.
  do 14 (destruct i as [ | i];
         [ repeat split;
           try reflexivity;
           (eexists; split; [ reflexivity | discriminate ])
           || (eexists; reflexivity) | ]).
  lia.
Qed.

End DemoRoute.

(** ** The notifications of the service worker *)

Section Notifications.
Import JS ServiceWorker.
Open Scope string_scope.

(** C9.  On every [TRIGGER_ALARM] message the worker displays a notification
    that stays until the user acts on it ([requireInteraction] true) under
    the tag [destination-alarm]; on every [PRE_ALERT] message it displays
    one that does not ([requireInteraction] false) under the tag
    [pre-alert]. *)
Theorem notification_persistence (now : Z) (w : Worker) :
  (forall payload : AlarmPayload,
     exists n rest,
       notifications (onMessage now (TRIGGER_ALARM payload) w) = n :: rest
       /\ requireInteraction (options n) = true
       /\ tag (options n) = "destination-alarm")
  /\ (forall payload : PreAlertPayload,
        exists n rest,
          notifications (onMessage now (PRE_ALERT payload) w) = n :: rest
          /\ requireInteraction (options n) = false
          /\ tag (options n) = "pre-alert").
Proof.
  split; intros payload; do 2 eexists; (split; [ reflexivity | ]);
    split; reflexivity.
Qed.

(** A notification replaces the one displayed under its tag: each tag is on
    display at most once after a message, if it was so before. *)
Lemma showNotification_replaces (t : string) (o : NotificationOptions)
  (w : Worker) :
  List.length
    (filter (fun n => String.eqb (tag (options n)) (tag o))
            (notifications (showNotification t o w))) = 1%nat.
Proof.
  unfold showNotification. cbn [notifications filter options tag].
  rewrite String.eqb_refl. cbn [List.length]. f_equal.
  induction (notifications w) as [ | n l IH]; [ reflexivity | ].
  cbn [filter].
  destruct (String.eqb (tag (options n)) (tag o)) eqn:E; cbn [negb filter].
  - exact IH.
  - rewrite E. exact IH.
Qed.

(** The text of the alarm at 1.5 km and at 400 m of the destination. *)
Example alarm_body_km (now : Z) (w : Worker) :
  option_map (fun n => body (options n))
    (hd_error
       (notifications
          (onMessage now
             (TRIGGER_ALARM {| stationName := "Villupuram Junction";
                               distance := Fin 1.5 |}) w)))
  = Some "Villupuram Junction is 1.5km away. Get ready!".
Proof.
  cbn [onMessage showAlarmNotification showNotification notifications hd_error
       option_map options body stationName distance lt toFixed].
  Rbool. rewrite Rabs_pos_eq by lra.
  rewrite (Zfloor_eq 15) by (cbn [pow]; lra). reflexivity.
Qed.

Example alarm_body_m (now : Z) (w : Worker) :
  option_map (fun n => body (options n))
    (hd_error
       (notifications
          (onMessage now
             (TRIGGER_ALARM {| stationName := "Villupuram Junction";
                               distance := Fin 0.4 |}) w)))
  = Some "Villupuram Junction is 400m away. Get ready!".
Proof.
  cbn [onMessage showAlarmNotification showNotification notifications hd_error
       option_map options body stationName distance lt mul Math_round ToString].
  Rbool. rewrite ZfloorZ.
  rewrite (Zfloor_eq 400) by lra. reflexivity.
Qed.

End Notifications.

(** ** The rendering of distances *)

Section FormatDistance.
Import JS DistanceCalc Spec.
Open Scope string_scope.


Lemma nearest_integer_unique (x : R) (n m : Z) :
  nearest_integer x n -> nearest_integer x m -> n = m.
Proof.
  unfold nearest_integer. intros Hn Hm.
  assert (H1 : IZR n < IZR m + 1) by lra.
  assert (H2 : IZR m < IZR n + 1) by lra.
  rewrite <- plus_IZR in H1, H2. apply lt_IZR in H1, H2. lia.
Qed.

Lemma ToString_Math_round (x : R) :
  ToString (Math_round (Fin x)) = IntegerToString (Zfloor (x + 1 / 2)).
Proof.
  cbn [Math_round ToString]. now rewrite ZfloorZ.
Qed.



Lemma formatDistance_metres (r : R) :
  r < 1 ->
  formatDistance (Fin r) = IntegerToString (Zfloor (r * 1000 + 1 / 2)) ++ " m".
Proof.
  intros Hr. unfold formatDistance.
  cbn [strict_eq isNaN orb lt]. Rbool.
  cbn [mul]. now rewrite ToString_Math_round.
Qed.

Lemma formatDistance_two_decimals (r : R) :
  1 <= r < 10 ->
  formatDistance (Fin r) = fixed_digits (Zfloor (r * 100 + 1 / 2)) 2 ++ " km".
Proof.
  intros Hr. unfold formatDistance.
  cbn [strict_eq isNaN orb lt]. Rbool.
  cbn [toFixed]. Rbool.
  rewrite Rabs_pos_eq by lra.
  now replace (10 ^ 2) with 100 by (cbn; lra).
Qed.

Lemma formatDistance_kilometres (r : R) :
  10 <= r ->
  formatDistance (Fin r) = IntegerToString (Zfloor (r + 1 / 2)) ++ " km".
Proof.
  intros Hr. unfold formatDistance.
  cbn [strict_eq isNaN orb lt]. Rbool.
  now rewrite ToString_Math_round.
Qed.



Example formatDistance_2_5 : formatDistance (Fin 2.5) = "2.50 km".
Proof.
  rewrite formatDistance_two_decimals by lra.
  rewrite (Zfloor_eq 250) by lra. reflexivity.
Qed.

Example formatDistance_153 : formatDistance (Fin 152.65) = "153 km".
Proof.
  rewrite formatDistance_kilometres by lra.
  rewrite (Zfloor_eq 153) by lra. reflexivity.
Qed.

(** A negative infinite distance is not caught by the placeholder test. *)
Example formatDistance_NegInf : formatDistance NegInf = "-Infinity m".
Proof.
  unfold formatDistance. cbn [strict_eq isNaN orb lt mul].
  unfold scale_inf. now Rbool.
Qed.

End FormatDistance.

(** ** The distance engine *)

Section Haversine.
Import JS DistanceCalc Spec.

Lemma toRadians_finite (d : R) : toRadians (Fin d) = Fin (radians d).
Proof.
  unfold toRadians, Math_PI, radians. cbn [div mul]. now Rbool.
Qed.

Lemma div_2_finite (x : R) : div (Fin x) (Fin 2) = Fin (x / 2).
Proof. cbn [div]. now Rbool. Qed.

(** The haversine term lies between 0 and 1: no square root in the
    computation is that of a negative number. *)
Lemma haversine_a_range (lat1 lon1 lat2 lon2 : R) :
  0 <= haversine_a lat1 lon1 lat2 lon2 <= 1.
Proof.
  unfold haversine_a.
  set (p1 := radians lat1). set (p2 := radians lat2).
  set (x := radians (lat2 - lat1) / 2). set (y := radians (lon2 - lon1) / 2).
  assert (Hx : 2 * x = p2 - p1) by (unfold x, p1, p2, radians; lra).
  pose proof (cos_2a_sin x) as Hcx. rewrite Hx, cos_minus in Hcx.
  pose proof (cos_2a_sin y) as Hcy.
  pose proof (COS_bound (2 * y)) as [Hlo Hhi].
  pose proof (sin2_cos2 p1) as H1. pose proof (sin2_cos2 p2) as H2.
  unfold Rsqr in H1, H2.
  set (s1 := sin p1) in *. set (c1 := cos p1) in *.
  set (s2 := sin p2) in *. set (c2 := cos p2) in *.
  set (k := cos (2 * y)) in *.
  set (sx := sin x) in *. set (sy := sin y) in *.
  assert (Ha : 2 * (sx * sx + c1 * c2 * sy * sy) = 1 - (s1 * s2 + c1 * c2 * k))
    by nra.
  assert (Hdot : -1 <= s1 * s2 + c1 * c2 * k <= 1).
  { assert (Hk : 0 <= (1 - k * k) * (c2 * c2))
      by (apply Rmult_le_pos; nra).
    pose proof (Rle_0_sqr (s1 - s2)) as Hs. pose proof (Rle_0_sqr (s1 + s2)) as Hs'.
    pose proof (Rle_0_sqr (c1 - k * c2)) as Hc.
    pose proof (Rle_0_sqr (c1 + k * c2)) as Hc'.
    unfold Rsqr in Hs, Hs', Hc, Hc'.
    split; nra. }
  lra.
Qed.

(** On four numbers of degrees the distance is the number the formula
    gives. *)
Lemma calculateDistance_finite (lat1 lon1 lat2 lon2 : R) :
  calculateDistance (Num (Fin lat1)) (Num (Fin lon1))
                    (Num (Fin lat2)) (Num (Fin lon2))
  = Fin (haversine_km lat1 lon1 lat2 lon2).
Proof.
  unfold calculateDistance. cbn [eq_null orb ToNumber].
  unfold sub. cbn [neg add]. rewrite !toRadians_finite, !div_2_finite.
  cbn [Math_sin Math_cos mul add].
  fold (lat2 - lat1). fold (lon2 - lon1).
  change (sin (radians (lat2 - lat1) / 2) * sin (radians (lat2 - lat1) / 2)
          + cos (radians lat1) * cos (radians lat2)
            * sin (radians (lon2 - lon1) / 2) * sin (radians (lon2 - lon1) / 2))
    with (haversine_a lat1 lon1 lat2 lon2).
  pose proof (haversine_a_range lat1 lon1 lat2 lon2) as Ha.
  set (a := haversine_a lat1 lon1 lat2 lon2) in *.
  cbn [neg add Math_sqrt]. Rbool. cbn [Math_atan2 mul EARTH_RADIUS_KM].
  unfold haversine_km. fold a. reflexivity.
Qed.

(** *** Numerical bounds *)

Lemma PI_bounds : 3.14159 < PI < 3.1416.
Proof.
  pose proof (PI_2_3_7_ineq 2) as [Hlo Hhi].
  unfold sum_f_R0, tg_alt, PI_2_3_7_tg, Ratan_seq in Hlo, Hhi.
  cbn in Hlo, Hhi. lra.
Qed.

(** The first terms of the series of the sine and of the cosine. *)
Lemma sin_bounds (x : R) : 0 <= x <= 1 -> x - x ^ 3 / 6 <= sin x <= x.
Proof.
  intros [H0 H1]. split.
  - pose proof (pre_sin_bound x 0 H0 ltac:(lra)) as [H _].
    unfold sin_approx, sin_term in H. cbn in H. cbn. lra.
  - destruct (Req_dec x 0) as [E | E].
    + subst x. rewrite sin_0. lra.
    + pose proof (sin_lt_x x ltac:(lra)). lra.
Qed.

Lemma cos_bounds (x : R) :
  0 <= x <= 1 -> 1 - x ^ 2 / 2 <= cos x <= 1 - x ^ 2 / 2 + x ^ 4 / 24.
Proof.
  intros [H0 H1].
  pose proof (pre_cos_bound x 0 ltac:(lra) ltac:(lra)) as [Hlo Hhi].
  unfold cos_approx, cos_term in Hlo, Hhi. cbn in Hlo, Hhi. cbn. lra.
Qed.

Lemma sin_interval (lo hi x : R) :
  0 <= lo <= x -> x <= hi -> hi <= 1 -> lo - hi ^ 3 / 6 <= sin x <= hi.
Proof.
  intros Hlo Hhi H1.
  pose proof (sin_bounds x ltac:(lra)) as [Hs Hs'].
  pose proof (pow_incr x hi 3 ltac:(lra)). lra.
Qed.

Lemma cos_interval (lo hi x : R) :
  0 <= lo <= x -> x <= hi -> hi <= 1 ->
  1 - hi ^ 2 / 2 <= cos x <= 1 - lo ^ 2 / 2 + hi ^ 4 / 24.
Proof.
  intros Hlo Hhi H1.
  pose proof (cos_bounds x ltac:(lra)) as [Hc Hc'].
  pose proof (pow_incr x hi 2 ltac:(lra)).
  pose proof (pow_incr x hi 4 ltac:(lra)).
  pose proof (pow_incr lo x 2 ltac:(lra)). lra.
Qed.

Lemma product_interval (a x b c y d : R) :
  0 <= a <= x -> x <= b -> 0 <= c <= y -> y <= d ->
  a * c <= x * y <= b * d.
Proof.
  intros Ha Hb Hc Hd. split; apply Rmult_le_compat; lra.
Qed.

(** The angle whose sine is [sqrt a]. *)
Lemma sin_atan2_sqrt (a : R) :
  0 <= a < 1 ->
  atan2 (sqrt a) (sqrt (1 - a)) = atan (sqrt a / sqrt (1 - a))
  /\ sin (atan (sqrt a / sqrt (1 - a))) = sqrt a.
Proof.
  intros Ha.
  assert (Hpos : 0 < sqrt (1 - a)) by (apply sqrt_lt_R0; lra).
  split.
  - unfold atan2. now rewrite (proj2 (Rltb_true _ _) Hpos).
  - rewrite sin_atan. unfold Rsqr.
    replace (1 + sqrt a / sqrt (1 - a) * (sqrt a / sqrt (1 - a)))
      with (/ (1 - a)).
    + rewrite sqrt_inv. field. lra.
    + replace (sqrt a / sqrt (1 - a) * (sqrt a / sqrt (1 - a)))
        with ((sqrt a * sqrt a) / (sqrt (1 - a) * sqrt (1 - a)))
        by (field; lra).
      rewrite !sqrt_sqrt by lra. field. lra.
Qed.

Lemma atan2_sqrt_interval (a L U : R) :
  0 < a < 1 ->
  0 <= L -> L * L <= a ->
  0 <= U <= 1 -> 0 <= U - U ^ 3 / 6 ->
  a <= (U - U ^ 3 / 6) * (U - U ^ 3 / 6) ->
  L <= atan2 (sqrt a) (sqrt (1 - a)) <= U.
Proof.
  intros Ha HL HLa HU HU' HUa.
  destruct (sin_atan2_sqrt a ltac:(lra)) as [-> Hsin].
  set (h := atan (sqrt a / sqrt (1 - a))) in *.
  pose proof (atan_bound (sqrt a / sqrt (1 - a))) as Hbound. fold h in Hbound.
  assert (Hsa : 0 < sqrt a) by (apply sqrt_lt_R0; lra).
  assert (HLs : L <= sqrt a).
  { rewrite <- (sqrt_square L HL). apply sqrt_le_1; nra. }
  assert (HUs : sqrt a <= U - U ^ 3 / 6).
  { rewrite <- (sqrt_square (U - U ^ 3 / 6) HU'). apply sqrt_le_1; nra. }
  assert (Hh : 0 < h).
  { destruct (Rlt_le_dec 0 h) as [Hp | Hn]; [ exact Hp | ].
    exfalso.
    assert (sin h <= 0); [ | lra ].
    rewrite <- sin_0. apply sin_incr_1; lra. }
  split.
  - pose proof (sin_lt_x h Hh). lra.
  - pose proof PI_bounds as HPI.
    apply sin_incr_0; try lra.
    pose proof (sin_bounds U HU). lra.
Qed.

(** The haversine term from Chennai Central to Villupuram Junction. *)
Lemma haversine_a_Chennai_Villupuram :
  0.0001435095 <= haversine_a 13.0827 80.2707 11.9393 79.4924 <= 0.0001435235.
Proof.
  pose proof PI_bounds as HPI.
  unfold haversine_a.
  set (u := radians 1.1434 / 2). set (v := radians 0.7783 / 2).
  set (p1 := radians 13.0827). set (p2 := radians 11.9393).
  replace (radians (11.9393 - 13.0827) / 2) with (- u)
    by (unfold u, radians; lra).
  replace (radians (79.4924 - 80.2707) / 2) with (- v)
    by (unfold v, radians; lra).
  rewrite !sin_neg.
  assert (Hu : 0.009978038 <= u <= 0.009978071) by (unfold u, radians; lra).
  assert (Hv : 0.006791943 <= v <= 0.006791965) by (unfold v, radians; lra).
  assert (Hp1 : 0.2283359 <= p1 <= 0.2283368) by (unfold p1, radians; lra).
  assert (Hp2 : 0.2083799 <= p2 <= 0.2083806) by (unfold p2, radians; lra).
  assert (Hsu : 0.009977872 <= sin u <= 0.009978071).
  { pose proof (sin_interval 0.009978038 0.009978071 u
                  ltac:(lra) ltac:(lra) ltac:(lra)). lra. }
  assert (Hsv : 0.00679189 <= sin v <= 0.006791965).
  { pose proof (sin_interval 0.006791943 0.006791965 v
                  ltac:(lra) ltac:(lra) ltac:(lra)). lra. }
  assert (Hc1 : 0.973931 <= cos p1 <= 0.974045).
  { pose proof (cos_interval 0.2283359 0.2283368 p1
                  ltac:(lra) ltac:(lra) ltac:(lra)). lra. }
  assert (Hc2 : 0.978288 <= cos p2 <= 0.978368).
  { pose proof (cos_interval 0.2083799 0.2083806 p2
                  ltac:(lra) ltac:(lra) ltac:(lra)). lra. }
  set (su := sin u) in *. set (sv := sin v) in *.
  set (c1 := cos p1) in *. set (c2 := cos p2) in *.
  assert (HA : 0.0000995579 <= su * su <= 0.000099562).
  { pose proof (product_interval 0.009977872 su 0.009978071
                                 0.009977872 su 0.009978071
                  ltac:(lra) ltac:(lra) ltac:(lra) ltac:(lra)). lra. }
  assert (HB : 0.0000461297 <= sv * sv <= 0.0000461308).
  { pose proof (product_interval 0.00679189 sv 0.006791965
                                 0.00679189 sv 0.006791965
                  ltac:(lra) ltac:(lra) ltac:(lra) ltac:(lra)). lra. }
  assert (HC : 0.952785 <= c1 * c2 <= 0.952975).
  { pose proof (product_interval 0.973931 c1 0.974045 0.978288 c2 0.978368
                  ltac:(lra) ltac:(lra) ltac:(lra) ltac:(lra)). lra. }
  assert (HD : 0.0000439516 <= (c1 * c2) * (sv * sv) <= 0.0000439615).
  { pose proof (product_interval 0.952785 (c1 * c2) 0.952975
                                 0.0000461297 (sv * sv) 0.0000461308
                  ltac:(lra) ltac:(lra) ltac:(lra) ltac:(lra)). lra. }
  replace (- su * - su + c1 * c2 * - sv * - sv)
    with (su * su + (c1 * c2) * (sv * sv)) by ring.
  lra.
Qed.

(** The formula gives 152.65 km, to within 50 m. *)
Lemma haversine_km_Chennai_Villupuram :
  152.6 < haversine_km 13.0827 80.2707 11.9393 79.4924 < 152.7.
Proof.
  pose proof haversine_a_Chennai_Villupuram as Ha.
  unfold haversine_km.
  set (a := haversine_a 13.0827 80.2707 11.9393 79.4924) in *.
  pose proof (atan2_sqrt_interval a 0.0119795 0.011981
                ltac:(lra) ltac:(lra) ltac:(lra) ltac:(lra)
                ltac:(lra) ltac:(lra)) as Hh.
  lra.
Qed.

(** C8, as stated, fails: the distance from Chennai Central to Villupuram
    Junction is not within 1 km of 137 km. *)
Lemma Chennai_Villupuram_not_137 :
  ~ (exists d : R,
       calculateDistance (Num (Fin 13.0827)) (Num (Fin 80.2707))
                         (Num (Fin 11.9393)) (Num (Fin 79.4924)) = Fin d
       /\ Rabs (d - 137) <= 1).
Proof.
  intros [d [Hd Habs]].
  rewrite calculateDistance_finite in Hd. injection Hd as Hd.
  pose proof haversine_km_Chennai_Villupuram as Hkm. rewrite Hd in Hkm.
  pose proof (Rle_abs (d - 137)). lra.
Qed.

(** C8, amended.  [calculateDistance] applied to Chennai Central (13.0827,
    80.2707) and Villupuram Junction (11.9393, 79.4924) is the value of the
    haversine formula with Earth radius 6371 km on the inputs converted to
    radians; it lies between 152.6 km and 152.7 km, within 1 km of 153 km. *)
Theorem Chennai_Villupuram_distance :
  exists d : R,
    calculateDistance (Num (Fin 13.0827)) (Num (Fin 80.2707))
                      (Num (Fin 11.9393)) (Num (Fin 79.4924)) = Fin d
    /\ d = haversine_km 13.0827 80.2707 11.9393 79.4924
    /\ 152.6 < d < 152.7
    /\ Rabs (d - 153) <= 1.
Proof.
  exists (haversine_km 13.0827 80.2707 11.9393 79.4924).
  pose proof haversine_km_Chennai_Villupuram as Hkm.
  split; [ apply calculateDistance_finite | ].
  split; [ reflexivity | ].
  split; [ exact Hkm | ].
  apply Rabs_le. lra.
Qed.

Lemma haversine_km_same_point (lat lon : R) : haversine_km lat lon lat lon = 0.
Proof.
  unfold haversine_km, haversine_a, radians.
  replace ((lat - lat) * (PI / 180) / 2) with 0 by lra.
  replace ((lon - lon) * (PI / 180) / 2) with 0 by lra.
  rewrite sin_0.
  replace (0 * 0 + cos (lat * (PI / 180)) * cos (lat * (PI / 180)) * 0 * 0)
    with 0 by ring.
  rewrite Rminus_0_r, sqrt_0, sqrt_1. unfold atan2. Rbool.
  replace (0 / 1) with 0 by lra. rewrite atan_0. ring.
Qed.

(** X1.  The distance from a point to itself is zero, wherever the point
    is. *)
Theorem calculateDistance_identity (lat lon : R) :
  calculateDistance (Num (Fin lat)) (Num (Fin lon))
                    (Num (Fin lat)) (Num (Fin lon)) = Fin 0.
Proof.
  rewrite calculateDistance_finite. f_equal. apply haversine_km_same_point.
Qed.

End Haversine.

(** ** More on the distance engine *)

Section DistanceEngine.
Import JS DistanceCalc Spec Notions.
Open Scope string_scope.

Lemma atan2_sqrt_range (a : R) :
  0 <= a <= 1 -> 0 <= atan2 (sqrt a) (sqrt (1 - a)) <= PI / 2.
Proof.
  intros Ha. pose proof PI_RGT_0 as HPI.
  destruct (Req_dec a 1) as [E | E].
  - subst a. replace (1 - 1) with 0 by lra. rewrite sqrt_0, sqrt_1.
    unfold atan2. Rbool. lra.
  - destruct (sin_atan2_sqrt a ltac:(lra)) as [-> _].
    assert (Hpos : 0 < sqrt (1 - a)) by (apply sqrt_lt_R0; lra).
    pose proof (sqrt_pos a) as Hsa.
    pose proof (atan_bound (sqrt a / sqrt (1 - a))) as Hb.
    split; [ | lra ].
    destruct Hsa as [Hlt | Heq].
    + rewrite <- atan_0. left. apply atan_increasing.
      apply Rdiv_lt_0_compat; assumption.
    + rewrite <- Heq. replace (0 / sqrt (1 - a)) with 0 by (field; lra).
      rewrite atan_0. lra.
Qed.

Lemma add_NaN_r (x : number) : add x NaN = NaN.
Proof. now destruct x. Qed.

Lemma mul_NaN_r (x : number) : mul x NaN = NaN.
Proof. now destruct x. Qed.

Lemma sub_NaN_r (x : number) : sub x NaN = NaN.
Proof. unfold sub. cbn [neg]. apply add_NaN_r. Qed.

Lemma Math_atan2_NaN_r (y : number) : Math_atan2 y NaN = NaN.
Proof. now destruct y. Qed.

Lemma calculateDistance_NaN_coordinate (lat1 lon1 lat2 lon2 : number) :
  lat1 = NaN \/ lon1 = NaN \/ lat2 = NaN \/ lon2 = NaN ->
  calculateDistance (Num lat1) (Num lon1) (Num lat2) (Num lon2) = NaN.
Proof.
  intros H. unfold calculateDistance. cbn [eq_null orb ToNumber].
  assert (Ha :
    add (mul (Math_sin (div (toRadians (sub lat2 lat1)) (Fin 2)))
             (Math_sin (div (toRadians (sub lat2 lat1)) (Fin 2))))
        (mul (mul (mul (Math_cos (toRadians lat1)) (Math_cos (toRadians lat2)))
                  (Math_sin (div (toRadians (sub lon2 lon1)) (Fin 2))))
             (Math_sin (div (toRadians (sub lon2 lon1)) (Fin 2)))) = NaN).
  { destruct H as [H | [H | [H | H]]]; subst;
      rewrite ?sub_NaN_r;
      cbn [sub neg add toRadians mul div Math_sin Math_cos];
      rewrite ?mul_NaN_r; cbn [mul add];
      rewrite ?mul_NaN_r, ?add_NaN_r; reflexivity. }
  rewrite Ha. reflexivity.
Qed.

(** *** Both directions

    The laws of the sign that the operations of [calculateDistance] obey.
    They are those of the arithmetic of doubles as well, where rounding
    commutes with the change of sign: nothing here needs a result to be
    finite or exact. *)














(** *** The range of the distance *)

Lemma toRadians_not_finite (x : number) :
  finite x = false -> toRadians x = x.
Proof.
  pose proof PI_RGT_0 as HPI.
  destruct x as [a | | | ]; cbn [finite]; intros H; try discriminate H;
    unfold toRadians, Math_PI; cbn [div]; Rbool; cbn [mul];
    unfold scale_inf; Rbool; reflexivity.
Qed.

Lemma div_2_not_finite (x : number) :
  finite x = false -> div x (Fin 2) = x.
Proof.
  destruct x as [a | | | ]; cbn [finite]; intros H; try discriminate H;
    cbn [div]; Rbool; reflexivity.
Qed.

Lemma sub_not_finite (x y : number) :
  finite x = false \/ finite y = false -> finite (sub x y) = false.
Proof.
  destruct x, y; cbn [finite sub neg add]; intros [H | H];
    try discriminate H; reflexivity.
Qed.

Lemma Math_sin_not_finite (x : number) :
  finite x = false -> Math_sin x = NaN.
Proof. destruct x; cbn [finite]; intros H; try discriminate H; reflexivity. Qed.

Lemma Math_cos_not_finite (x : number) :
  finite x = false -> Math_cos x = NaN.
Proof. destruct x; cbn [finite]; intros H; try discriminate H; reflexivity. Qed.

Lemma half_angle_not_finite (x y : number) :
  finite x = false \/ finite y = false ->
  Math_sin (div (toRadians (sub x y)) (Fin 2)) = NaN.
Proof.
  intros H. apply sub_not_finite in H.
  rewrite (toRadians_not_finite _ H), (div_2_not_finite _ H).
  now apply Math_sin_not_finite.
Qed.

(** A coordinate that is a number but not a finite one gives [NaN]. *)
Lemma calculateDistance_not_finite (lat1 lon1 lat2 lon2 : number) :
  finite lat1 && finite lon1 && finite lat2 && finite lon2 = false ->
  calculateDistance (Num lat1) (Num lon1) (Num lat2) (Num lon2) = NaN.
Proof.
  intros H. unfold calculateDistance. cbn [eq_null orb ToNumber].
  assert (Ha :
    add (mul (Math_sin (div (toRadians (sub lat2 lat1)) (Fin 2)))
             (Math_sin (div (toRadians (sub lat2 lat1)) (Fin 2))))
        (mul (mul (mul (Math_cos (toRadians lat1)) (Math_cos (toRadians lat2)))
                  (Math_sin (div (toRadians (sub lon2 lon1)) (Fin 2))))
             (Math_sin (div (toRadians (sub lon2 lon1)) (Fin 2)))) = NaN).
  { destruct (finite lat1) eqn:H1.
    - destruct (finite lat2) eqn:H2.
      + assert (Hlon : finite lon2 = false \/ finite lon1 = false)
          by (destruct (finite lon1), (finite lon2);
              first [ discriminate H | now left | now right ]).
        rewrite (half_angle_not_finite _ _ Hlon).
        now rewrite !mul_NaN_r, add_NaN_r.
      + rewrite (toRadians_not_finite _ H2), (Math_cos_not_finite _ H2).
        rewrite mul_NaN_r. cbn [mul]. apply add_NaN_r.
    - rewrite (toRadians_not_finite _ H1), (Math_cos_not_finite _ H1).
      cbn [mul]. apply add_NaN_r. }
  rewrite Ha. reflexivity.
Qed.

(** X2.  The distance is never negative and never beyond half the way
    round the Earth.  [calculateDistance] returns [Infinity] exactly when a
    coordinate is missing; otherwise it returns [NaN] or a finite number
    of kilometres between 0 and 20016 (half the circumference is
    6371 * PI, a little over 20015): never a negative number and never
    [-Infinity]. *)
Theorem calculateDistance_never_negative (lat1 lon1 lat2 lon2 : value) :
  let d := calculateDistance lat1 lon1 lat2 lon2 in
  (d = PosInf
   <-> eq_null lat1 || eq_null lon1 || eq_null lat2 || eq_null lon2 = true)
  /\ (d = PosInf \/ d = NaN
      \/ exists km : R, d = Fin km /\ 0 <= km <= 20016).
Proof.
  intros d.
  assert (Hpresent : forall n1 m1 n2 m2 : number,
             let d' := calculateDistance (Num n1) (Num m1) (Num n2) (Num m2) in
             d' = NaN \/ exists km : R, d' = Fin km /\ 0 <= km <= 20016).
  { intros n1 m1 n2 m2 d'. subst d'.
    destruct (finite n1 && finite m1 && finite n2 && finite m2) eqn:Hfin.
    - destruct n1 as [a1 | | | ], m1 as [b1 | | | ],
               n2 as [a2 | | | ], m2 as [b2 | | | ];
        try discriminate Hfin.
      right. exists (haversine_km a1 b1 a2 b2).
      split; [ apply calculateDistance_finite | ].
      unfold haversine_km.
      pose proof (atan2_sqrt_range _ (haversine_a_range a1 b1 a2 b2)).
      pose proof PI_bounds. nra.
    - left. now apply calculateDistance_not_finite. }
  subst d.
  destruct lat1 as [ | | n1], lon1 as [ | | m1],
           lat2 as [ | | n2], lon2 as [ | | m2];
    try (split; [ split; reflexivity | left; reflexivity ]).
  cbn [eq_null orb].
  destruct (Hpresent n1 m1 n2 m2) as [E | [km [E Hkm]]].
  - split; [ | right; left; exact E ].
    rewrite E. split; discriminate.
  - split; [ | right; right; exists km; split; assumption ].
    rewrite E. split; discriminate.
Qed.



Lemma le_Fin_trans (x y : number) (c : R) :
  le x y = true -> le y (Fin c) = true -> le x (Fin c) = true.
Proof.
  destruct x as [a | | | ], y as [b | | | ]; cbn [le]; try discriminate;
    try reflexivity.
  intros Hab Hbc. apply Rleb_true in Hab, Hbc. apply Rleb_true. lra.
Qed.

(** X5.  Coming closer never makes the state less urgent: when neither
    distance has grown, the state is at least as urgent as before (safe,
    approaching, pre-alert, alarm in that order). *)
Theorem getAlarmState_monotone (distToDestKm distToPrevKm closerDest closerPrev : number) :
  le closerDest distToDestKm = true ->
  le closerPrev distToPrevKm = true ->
  (severity (getAlarmState distToDestKm distToPrevKm)
   <= severity (getAlarmState closerDest closerPrev))%nat.
Proof.
  intros Hd Hp. unfold getAlarmState.
  destruct (le distToDestKm (Fin 2)) eqn:H2.
  - now rewrite (le_Fin_trans _ _ _ Hd H2).
  - destruct (le distToPrevKm (Fin 0.5)) eqn:H05.
    + rewrite (le_Fin_trans _ _ _ Hp H05).
      destruct (le closerDest (Fin 2)); cbn; lia.
    + destruct (le distToDestKm (Fin 15)) eqn:H15.
      * rewrite (le_Fin_trans _ _ _ Hd H15).
        destruct (le closerDest (Fin 2)), (le closerPrev (Fin 0.5)); cbn; lia.
      * cbn. lia.
Qed.

Lemma getAlarmState_monotone_witness :
  (severity (getAlarmState (Fin 12) (Fin 3))
   <= severity (getAlarmState (Fin 1.5) (Fin 3)))%nat.
Proof.
  apply getAlarmState_monotone; cbn [le]; apply Rleb_true; lra.
Defined.

(** X6.  At the upper end of a range the rounding reaches the next unit
    without changing it: from 999.5 m and below 1 km the rendering is
    [1000 m], and from 9.995 km and below 10 km it is [10.00 km]. *)
Theorem formatDistance_rounding_edges (km : R) :
  (0.9995 <= km < 1 -> formatDistance (Fin km) = "1000 m")
  /\ (9.995 <= km < 10 -> formatDistance (Fin km) = "10.00 km").
Proof.
  split; intros Hkm.
  - rewrite formatDistance_metres by lra.
    rewrite (Zfloor_eq 1000) by lra. reflexivity.
  - rewrite formatDistance_two_decimals by lra.
    rewrite (Zfloor_eq 1000) by lra. reflexivity.
Qed.

Lemma formatDistance_rounding_edges_witness :
  formatDistance (Fin 0.9997) = "1000 m"
  /\ formatDistance (Fin 9.996) = "10.00 km".
Proof.
  split.
  - apply (proj1 (formatDistance_rounding_edges 0.9997)). lra.
  - apply (proj2 (formatDistance_rounding_edges 9.996)). lra.
Defined.

(** X7.  At the destination itself the state is alarm, whatever the
    distance to the previous station, a missing or [NaN] one included. *)
Theorem getAlarmState_at_destination (lat lon : R) (distToPrevKm : number) :
  getAlarmState
    (calculateDistance (Num (Fin lat)) (Num (Fin lon))
                       (Num (Fin lat)) (Num (Fin lon)))
    distToPrevKm = alarm.
Proof.
  rewrite calculateDistance_finite, haversine_km_same_point.
  apply getAlarmState_alarm. lra.
Qed.

End DistanceEngine.

(** ** More on the simulated source *)

Section Playback.
Import JS DistanceCalc Geolocation Spec.

(** The three things the interval callback can do. *)
Lemma tick_cases (stations : list Station) (now : Z) (tm : SimTimer) :
  ((List.length stations <= seg tm + 1)%nat
   /\ tick stations now tm =
      ({| seg := seg tm; step := step tm; installed := false |}, Cleared))
  \/ ((seg tm + 1 < List.length stations)%nat
      /\ (truthy (latitude (nth (seg tm) stations undefinedStation)) = false
          \/ truthy (latitude (nth (seg tm + 1) stations undefinedStation)) = false)
      /\ tick stations now tm =
         ({| seg := S (seg tm); step := 0; installed := installed tm |}, Skipped))
  \/ ((seg tm + 1 < List.length stations)%nat
      /\ truthy (latitude (nth (seg tm) stations undefinedStation)) = true
      /\ truthy (latitude (nth (seg tm + 1) stations undefinedStation)) = true
      /\ exists p,
           tick stations now tm =
           ((if (100 <? S (step tm))%nat
             then {| seg := S (seg tm); step := 0; installed := installed tm |}
             else {| seg := seg tm; step := S (step tm);
                     installed := installed tm |}),
            Emitted p (seg tm) (Fin (INR (step tm) / 100)))).
Proof.
  unfold tick.
  destruct (Z.of_nat (List.length stations) - 1 <=? Z.of_nat (seg tm))%Z eqn:Hseg.
  - left. apply Z.leb_le in Hseg. split; [ lia | reflexivity ].
  - right. apply Z.leb_gt in Hseg.
    destruct (truthy (latitude (nth (seg tm) stations undefinedStation))) eqn:Hfrom;
      [ destruct (truthy (latitude (nth (seg tm + 1) stations undefinedStation)))
          eqn:Hto | ]; cbn [negb orb].
    + right. repeat (split; [ first [ lia | reflexivity ] | ]).
      unfold div. rewrite INR_STEPS_PER_SEGMENT. Rbool.
      unfold STEPS_PER_SEGMENT. eexists.
      destruct (100 <? S (step tm))%nat; reflexivity.
    + left. repeat (split; [ first [ lia | now right ] | ]). reflexivity.
    + left. repeat (split; [ first [ lia | now left ] | ]). reflexivity.
Qed.

Lemma firings_not_installed (stations : list Station) (clock : nat -> Z)
  (i n : nat) (tm : SimTimer) :
  installed tm = false -> firings stations clock i n tm = [].
Proof.
  intros H. destruct n; cbn [firings]; [ reflexivity | now rewrite H ].
Qed.

(** The number of firings left is bounded by the steps left on the route. *)
Lemma firings_bound (stations : list Station) (clock : nat -> Z) :
  forall (n i : nat) (tm : SimTimer),
    (step tm <= 100)%nat ->
    (List.length (firings stations clock i n tm)
     <= 101 * (List.length stations - 1 - seg tm) - step tm + 1)%nat.
Proof.
  induction n as [ | n IH]; intros i tm Hstep; cbn [firings]; [ cbn; lia | ].
  destruct (installed tm) eqn:Hinst; [ | cbn; lia ].
  destruct (tick_cases stations (clock i) tm)
    as [[Hlen Ht] | [[Hlen [_ Ht]] | [Hlen [_ [_ [p Ht]]]]]]; rewrite Ht;
    rewrite ?Hinst.
  - rewrite firings_not_installed by reflexivity. cbn. lia.
  - cbn [List.length].
    specialize (IH (S i) {| seg := S (seg tm); step := 0; installed := true |}
                  ltac:(cbn; lia)).
    cbn [seg step] in IH. lia.
  - cbn [List.length].
    destruct (Nat.ltb_spec 100 (S (step tm))) as [Hlast | Hmore].
    + specialize (IH (S i) {| seg := S (seg tm); step := 0; installed := true |}
                    ltac:(cbn; lia)).
      cbn [seg step] in IH. lia.
    + specialize (IH (S i) {| seg := seg tm; step := S (step tm); installed := true |}
                    ltac:(cbn; lia)).
      cbn [seg step] in IH. lia.
Qed.

(** Given enough periods, the last firing is the one that clears the
    interval. *)
Lemma firings_last_cleared (stations : list Station) (clock : nat -> Z) :
  forall (n i : nat) (tm : SimTimer),
    installed tm = true ->
    (step tm <= 100)%nat ->
    (101 * (List.length stations - 1 - seg tm) - step tm < n)%nat ->
    last (firings stations clock i n tm) Skipped = Cleared.
Proof.
  induction n as [ | n IH]; intros i tm Hinst Hstep Hn; [ lia | ].
  cbn [firings]. rewrite Hinst.
  assert (Hlast : forall (r : Tick) (tm' : SimTimer),
             installed tm' = true -> (0 < n)%nat ->
             last (r :: firings stations clock (S i) n tm') Skipped
             = last (firings stations clock (S i) n tm') Skipped).
  { intros r tm' Hinst' Hpos. destruct n as [ | n']; [ lia | ].
    cbn [firings]. rewrite Hinst'.
    now destruct (tick stations (clock (S i)) tm'). }
  destruct (tick_cases stations (clock i) tm)
    as [[Hlen Ht] | [[Hlen [_ Ht]] | [Hlen [_ [_ [p Ht]]]]]]; rewrite Ht.
  - now rewrite firings_not_installed.
  - rewrite Hinst, Hlast by (first [ reflexivity | lia ]).
    apply IH; cbn [seg step installed]; first [ reflexivity | lia ].
  - rewrite Hinst.
    destruct (Nat.ltb_spec 100 (S (step tm))) as [Hend | Hmore].
    + rewrite Hlast by (first [ reflexivity | lia ]).
      apply IH; cbn [seg step installed]; first [ reflexivity | lia ].
    + rewrite Hlast by (first [ reflexivity | lia ]).
      apply IH; cbn [seg step installed]; first [ reflexivity | lia ].
Qed.

(** X9.  The playback always comes to an end, whatever the stations hold:
    there are at most [101] firings per segment and one more, and with
    periods enough the last firing is the one that clears the interval. *)
Theorem simulated_playback_terminates
  (stations : list Station) (isActive : bool) (speedMultiplier : value)
  (clock : nat -> Z) (n : nat) :
  let out :=
    useSimulatedGeolocation (Some stations) isActive speedMultiplier clock n in
  (List.length out <= 101 * (List.length stations - 1) + 1)%nat
  /\ (isActive = true -> (2 <= List.length stations)%nat ->
      (101 * (List.length stations - 1) < n)%nat ->
      last out Skipped = Cleared).
Proof.
  intros out. subst out. unfold useSimulatedGeolocation, startSimulation.
  destruct (negb isActive || (List.length stations <? 2)%nat) eqn:Hoff.
  - split; [ cbn; lia | ].
    intros Hactive Hlen _. subst isActive. cbn [negb orb] in Hoff.
    apply Nat.ltb_lt in Hoff. lia.
  - split.
    + pose proof (firings_bound stations clock n 0
                    {| seg := 0; step := 0; installed := true |}
                    ltac:(cbn; lia)) as H.
      cbn [seg step] in H. lia.
    + intros _ Hlen Hn. apply firings_last_cleared; cbn [seg step installed];
        first [ reflexivity | lia ].
Qed.

Lemma simulated_playback_terminates_witness :
  let stations :=
    [ {| latitude := Num (Fin 13.0827); longitude := Num (Fin 80.2707) |};
      {| latitude := Null; longitude := Null |};
      {| latitude := Num (Fin 11.9393); longitude := Num (Fin 79.4924) |} ] in
  let out := useSimulatedGeolocation (Some stations) true Undefined Z.of_nat 300 in
  (List.length out <= 101 * (List.length stations - 1) + 1)%nat
  /\ last out Skipped = Cleared.
Proof.
  intros stations out.
  destruct (simulated_playback_terminates stations true Undefined Z.of_nat 300)
    as [Hlength Hlast].
  split; [ exact Hlength | ].
  apply Hlast; [ reflexivity | cbn; lia | cbn; lia ].
Defined.




(** X11.  Only the latitudes are tested: between two stations with a
    latitude, one of which has no longitude ([undefined]), the callback
    emits a sample whose longitude is [NaN], and the distance from that
    sample to any point is [NaN]. *)
Theorem simulated_sample_without_longitude
  (stations : list Station) (now : Z) (tm : SimTimer) :
  (seg tm + 1 < List.length stations)%nat ->
  truthy (latitude (nth (seg tm) stations undefinedStation)) = true ->
  truthy (latitude (nth (seg tm + 1) stations undefinedStation)) = true ->
  longitude (nth (seg tm) stations undefinedStation) = Undefined
  \/ longitude (nth (seg tm + 1) stations undefinedStation) = Undefined ->
  exists p t,
    snd (tick stations now tm) = Emitted p (seg tm) t
    /\ lon p = NaN
    /\ forall lat2 lon2 : number,
         calculateDistance (Num (lat p)) (Num (lon p)) (Num lat2) (Num lon2)
         = NaN.
Proof.
  intros Hlen Hfrom Hto Hlon. unfold tick.
  assert (Hseg : (Z.of_nat (List.length stations) - 1 <=? Z.of_nat (seg tm))%Z
                 = false) by (apply Z.leb_gt; lia).
  rewrite Hseg, Hfrom, Hto. cbn [negb orb].
  assert (HNaN :
    add (ToNumber (longitude (nth (seg tm) stations undefinedStation)))
        (mul (sub (ToNumber (longitude (nth (seg tm + 1) stations undefinedStation)))
                  (ToNumber (longitude (nth (seg tm) stations undefinedStation))))
             (div (Fin (INR (step tm))) (Fin (INR STEPS_PER_SEGMENT)))) = NaN).
  { destruct Hlon as [H | H]; rewrite H; cbn [ToNumber].
    - reflexivity.
    - unfold sub at 1. cbn [add mul]. apply add_NaN_r. }
  destruct (STEPS_PER_SEGMENT <? S (step tm))%nat; cbn [snd];
    do 2 eexists; (split; [ reflexivity | ]); cbn [lon lat];
    rewrite HNaN; (split; [ reflexivity | ]);
    intros lat2 lon2; apply calculateDistance_NaN_coordinate; now (right; left).
Qed.

Lemma simulated_sample_without_longitude_witness :
  let stations :=
    [ {| latitude := Num (Fin 13.0827); longitude := Undefined |};
      {| latitude := Num (Fin 12.6921); longitude := Num (Fin 79.9765) |} ] in
  exists p t,
    snd (tick stations 0 initialTimer) = Emitted p 0 t
    /\ lon p = NaN
    /\ forall lat2 lon2 : number,
         calculateDistance (Num (lat p)) (Num (lon p)) (Num lat2) (Num lon2)
         = NaN.
Proof.
  intros stations.
  apply (simulated_sample_without_longitude stations 0 initialTimer).
  - cbn. lia.
  - cbn [stations seg initialTimer nth latitude truthy]. now Rbool.
  - cbn [stations seg initialTimer Nat.add nth latitude truthy]. now Rbool.
  - left. reflexivity.
Defined.

Lemma on_the_map_truthy (stations : list Station) :
  Forall Notions.on_the_map stations -> Forall truthy_station stations.
Proof.
  apply Forall_impl. intros s [a [b [Hlat [Hlon [Ha _]]]]].
  split; [ now exists a, b | ].
  rewrite Hlat. cbn [truthy]. apply Bool.negb_true_iff. now apply Reqb_false.
Qed.

(** X8.  The schedule of the playback on a route on the map.  For every
    route of at least two stations whose latitudes are not zero and whose
    coordinates are those of a place (at most 90 and 180 degrees), and for
    every speed, the interval fires [101] times per segment and once more.
    Firing [101 * k + j] emits a sample of segment [k]; the one at step 0,
    at progress 0, is at the exact coordinates of station [k]; the one at
    step 100, at progress 1, is at station [k + 1] to within [10^-12] of a
    degree, which leaves room for the rounding of the interpolation.  The
    firing after the last segment clears the interval, and nothing is
    emitted after it. *)
Theorem simulated_playback_schedule
  (stations : list Station) (speedMultiplier : value) (clock : nat -> Z)
  (n : nat) :
  (2 <= List.length stations)%nat ->
  Forall Notions.on_the_map stations ->
  (101 * (List.length stations - 1) < n)%nat ->
  let out := useSimulatedGeolocation (Some stations) true speedMultiplier clock n in
  List.length out = (101 * (List.length stations - 1) + 1)%nat
  /\ nth_error out (101 * (List.length stations - 1)) = Some Cleared
  /\ forall k : nat, (k + 1 < List.length stations)%nat ->
       (forall j : nat, (j <= 100)%nat ->
          exists p t, nth_error out (101 * k + j) = Some (Emitted p k t))
       /\ (exists p, nth_error out (101 * k) = Some (Emitted p k (Fin 0))
                     /\ at_station p (nth k stations undefinedStation))
       /\ (exists p, nth_error out (101 * k + 100) = Some (Emitted p k (Fin 1))
                     /\ Notions.near_station (/ 10 ^ 12) p
                          (nth (k + 1) stations undefinedStation)).
Proof.
  intros Hlen Hmap Hn out. subst out.
  pose proof (on_the_map_truthy stations Hmap) as Hall.
  unfold useSimulatedGeolocation, startSimulation.
  assert (Hlt : (List.length stations <? 2)%nat = false)
    by (apply Nat.ltb_ge; lia).
  rewrite Hlt. cbn [negb orb]. fold initialTimer.
  destruct (firings_truthy_route_end stations clock n Hlen Hall Hn)
    as [Hlength Hclear].
  split; [ exact Hlength | split; [ exact Hclear | ] ].
  intros k Hk.
  destruct (truthy_station_nth stations k Hall ltac:(lia))
    as [a [b [Hfrom Ha]]].
  destruct (truthy_station_nth stations (k + 1) Hall ltac:(lia))
    as [a' [b' [Hto Ha']]].
  assert (Hfire : forall j, (j <= 100)%nat ->
             nth_error (firings stations clock 0 n initialTimer) (101 * k + j) =
             Some (Emitted {| lat := Fin (a + (a' - a) * (INR j / 100));
                              lon := Fin (b + (b' - b) * (INR j / 100));
                              timestamp := clock (101 * k + j)%nat |}
                           k (Fin (INR j / 100))))
    by (intros j Hj;
        apply (firing_truthy_route stations clock n k j a b a' b');
        (assumption || nia)).
  split; [ | split ].
  - intros j Hj. do 2 eexists. now apply Hfire.
  - eexists. split.
    + rewrite <- (Nat.add_0_r (101 * k)), (Hfire 0%nat ltac:(lia)).
      cbn [INR]. do 2 f_equal. f_equal. lra.
    + rewrite Hfrom. unfold at_station. cbn.
      split; do 2 f_equal; lra.
  - assert (H100 : INR 100 = 100) by (rewrite INR_IZR_INZ; reflexivity).
    eexists. split.
    + rewrite (Hfire 100%nat ltac:(lia)), H100.
      do 2 f_equal. f_equal. lra.
    + rewrite Hto. unfold Notions.near_station. cbn [latitude longitude lat lon].
      exists a', b', (a + (a' - a) * (100 / 100)), (b + (b' - b) * (100 / 100)).
      assert (Htol : 0 <= / 10 ^ 12)
        by (left; apply Rinv_0_lt_compat, pow_lt; lra).
      repeat split; try reflexivity.
      * replace (a + (a' - a) * (100 / 100) - a') with 0 by lra.
        now rewrite Rabs_R0.
      * replace (b + (b' - b) * (100 / 100) - b') with 0 by lra.
        now rewrite Rabs_R0.
Qed.

Lemma simulated_playback_schedule_witness :
  let stations :=
    [ {| latitude := Num (Fin 13.0827); longitude := Num (Fin 80.2707) |};
      {| latitude := Num (Fin 12.6921); longitude := Num (Fin 79.9765) |} ] in
  let out := useSimulatedGeolocation (Some stations) true (Num (Fin 200)) Z.of_nat 150 in
  List.length out = (101 * (List.length stations - 1) + 1)%nat
  /\ nth_error out (101 * (List.length stations - 1)) = Some Cleared
  /\ forall k : nat, (k + 1 < List.length stations)%nat ->
       (forall j : nat, (j <= 100)%nat ->
          exists p t, nth_error out (101 * k + j) = Some (Emitted p k t))
       /\ (exists p, nth_error out (101 * k) = Some (Emitted p k (Fin 0))
                     /\ at_station p (nth k stations undefinedStation))
       /\ (exists p, nth_error out (101 * k + 100) = Some (Emitted p k (Fin 1))
                     /\ Notions.near_station (/ 10 ^ 12) p
                          (nth (k + 1) stations undefinedStation)).
Proof.
  apply (simulated_playback_schedule
           [ {| latitude := Num (Fin 13.0827); longitude := Num (Fin 80.2707) |};
             {| latitude := Num (Fin 12.6921); longitude := Num (Fin 79.9765) |} ]
           (Num (Fin 200)) Z.of_nat 150).
  - cbn [List.length]. lia.
  - repeat constructor.
    + exists 13.0827, 80.2707.
      repeat split; try reflexivity; try lra;
        rewrite Rabs_pos_eq; lra.
    + exists 12.6921, 79.9765.
      repeat split; try reflexivity; try lra;
        rewrite Rabs_pos_eq; lra.
  - cbn [List.length]. lia.
Defined.

End Playback.

(** ** The watch of the live source *)

Section Watch.
Import JS Geolocation Lifecycle Notions.

Lemma stopWatching_released (s : Navigator * GeoHook) :
  holds_only s ->
  watchIdRef (snd (stopWatching s)) = None
  /\ watches (fst (stopWatching s)) = []
  /\ geolocation (fst (stopWatching s)) = geolocation (fst s).
Proof.
  destruct s as [nav h]. unfold holds_only, stopWatching. cbn [fst snd].
  destruct (watchIdRef h) as [id | ] eqn:Href.
  - intros [o Hw]. cbn [fst snd watchIdRef clearWatch watches geolocation].
    rewrite Hw. cbn [filter fst]. rewrite Nat.eqb_refl. now cbn.
  - intros Hw. cbn [fst snd]. now rewrite Href.
Qed.

Lemma hookStep_holds_only (s : Navigator * GeoHook) (e : HookEvent) :
  holds_only s -> holds_only (hookStep s e).
Proof.
  intros Hs. destruct (stopWatching_released s Hs) as [Href [Hw Hgeo]].
  destruct e as [d [ | ] | ]; cbn [hookStep]; unfold useGeolocation.
  - destruct (stopWatching s) as [nav h]. cbn [fst snd] in Href, Hw, Hgeo.
    unfold startWatching.
    destruct (geolocation nav); cbn [negb].
    + unfold watchPosition, holds_only. cbn [fst snd watchIdRef watches].
      rewrite Hw. eexists. reflexivity.
    + unfold holds_only. cbn [fst snd watchIdRef]. now rewrite Href.
  - unfold holds_only. now rewrite Href.
  - unfold holds_only. now rewrite Href.
Qed.

Lemma hookRun_holds_only (events : list HookEvent) :
  forall s : Navigator * GeoHook,
    holds_only s -> holds_only (hookRun events s).
Proof.
  unfold hookRun.
  induction events as [ | e events IH]; intros s Hs; [ exact Hs | ].
  cbn [fold_left]. apply IH. now apply hookStep_holds_only.
Qed.

Lemma hookRun_app (events : list HookEvent) (e : HookEvent)
  (s : Navigator * GeoHook) :
  hookRun (events ++ [e]) s = hookStep (hookRun events s) e.
Proof. unfold hookRun. now rewrite fold_left_app. Qed.

(** X12.  The hook never holds two watches.  Through any succession of
    effects and cleanups the navigator has the watch the hook refers to and
    no other; after a cleanup or an effect without tracking it has none;
    after an effect with tracking, in a browser with geolocation, it has
    exactly one, requested with the options of the current distance. *)
Theorem useGeolocation_single_watch
  (events : list HookEvent) (s : Navigator * GeoHook) :
  holds_only s ->
  holds_only (hookRun events s)
  /\ (List.length (watches (fst (hookRun events s))) <= 1)%nat
  /\ watches (fst (hookRun (events ++ [Cleanup]) s)) = []
  /\ (forall d, watches (fst (hookRun (events ++ [Effect d false]) s)) = [])
  /\ (forall d : number,
        geolocation (fst s) = true ->
        exists id,
          watches (fst (hookRun (events ++ [Effect (Num d) true]) s))
          = [(id, if lt d (Fin 50)
                  then HIGH_ACCURACY_OPTIONS else LOW_ACCURACY_OPTIONS)]).
Proof.
  intros Hs. pose proof (hookRun_holds_only events s Hs) as Hrun.
  assert (Hgeo : geolocation (fst (hookRun events s)) = geolocation (fst s)).
  { clear Hrun. revert s Hs. unfold hookRun.
    induction events as [ | e events IH]; intros s Hs; [ reflexivity | ].
    cbn [fold_left].
    rewrite IH by now apply hookStep_holds_only.
    destruct (stopWatching_released s Hs) as [_ [_ Hstop]].
    destruct e as [d [ | ] | ]; cbn [hookStep]; unfold useGeolocation;
      try exact Hstop.
    destruct (stopWatching s) as [nav h]. cbn [fst] in Hstop.
    unfold startWatching. destruct (geolocation nav) eqn:E; cbn [negb fst].
    - unfold watchPosition. cbn [fst geolocation]. congruence.
    - congruence. }
  destruct (stopWatching_released _ Hrun) as [Href [Hw Hgeo']].
  split; [ exact Hrun | ].
  split.
  { unfold holds_only in Hrun.
    destruct (watchIdRef (snd (hookRun events s))).
    - destruct Hrun as [o Ho]. rewrite Ho. cbn. lia.
    - rewrite Hrun. cbn. lia. }
  split; [ now rewrite hookRun_app | ].
  split; [ intros d; now rewrite hookRun_app | ].
  intros d Hsupported. rewrite hookRun_app. cbn [hookStep].
  unfold useGeolocation. cbn [distanceToDestKm_default].
  destruct (stopWatching (hookRun events s)) as [nav h].
  cbn [fst snd] in Href, Hw, Hgeo'.
  unfold startWatching.
  assert (E : geolocation nav = true) by congruence.
  rewrite E. cbn [negb ToNumber]. unfold watchPosition.
  cbn [fst watches]. rewrite Hw. eexists. reflexivity.
Qed.

Lemma useGeolocation_single_watch_witness :
  let s := ({| geolocation := true; watches := []; nextWatchId := 1 |},
            {| watchIdRef := None; error := None |}) in
  let events := [Effect (Num (Fin 120)) true; Effect (Num (Fin 40)) true] in
  holds_only (hookRun events s)
  /\ (List.length (watches (fst (hookRun events s))) <= 1)%nat
  /\ watches (fst (hookRun (events ++ [Cleanup]) s)) = []
  /\ (forall d, watches (fst (hookRun (events ++ [Effect d false]) s)) = [])
  /\ (forall d : number,
        geolocation (fst s) = true ->
        exists id,
          watches (fst (hookRun (events ++ [Effect (Num d) true]) s))
          = [(id, if lt d (Fin 50)
                  then HIGH_ACCURACY_OPTIONS else LOW_ACCURACY_OPTIONS)]).
Proof.
  intros s events. apply (useGeolocation_single_watch events s). reflexivity.
Defined.

(** X13.  In a browser without geolocation the hook never asks for a watch:
    whatever the effects and cleanups, the navigator is left as it was, the
    hook refers to no watch, and an effect with tracking reports that
    geolocation is not supported. *)
Theorem useGeolocation_unsupported
  (events : list HookEvent) (nav : Navigator) (h : GeoHook) :
  geolocation nav = false ->
  watchIdRef h = None ->
  fst (hookRun events (nav, h)) = nav
  /\ watchIdRef (snd (hookRun events (nav, h))) = None
  /\ forall d,
       error (snd (hookRun (events ++ [Effect d true]) (nav, h)))
       = Some "Geolocation is not supported by your browser."%string.
Proof.
  intros Hgeo Href.
  assert (Hstep : forall (h0 : GeoHook) (e : HookEvent),
             watchIdRef h0 = None ->
             fst (hookStep (nav, h0) e) = nav
             /\ watchIdRef (snd (hookStep (nav, h0) e)) = None).
  { intros h0 e H0.
    destruct e as [d [ | ] | ]; cbn [hookStep]; unfold useGeolocation, stopWatching;
      rewrite H0; unfold startWatching; rewrite ?Hgeo; cbn [negb fst snd watchIdRef];
      now rewrite ?H0. }
  assert (Hrun : forall evs (h0 : GeoHook),
             watchIdRef h0 = None ->
             fst (hookRun evs (nav, h0)) = nav
             /\ watchIdRef (snd (hookRun evs (nav, h0))) = None).
  { unfold hookRun. induction evs as [ | e evs IH]; intros h0 H0;
      [ now split | ].
    cbn [fold_left]. destruct (Hstep h0 e H0) as [Hn Hr].
    destruct (hookStep (nav, h0) e) as [nav' h'] eqn:E.
    cbn [fst snd] in Hn, Hr. subst nav'. now apply IH. }
  destruct (Hrun events h Href) as [Hn Hr].
  split; [ exact Hn | split; [ exact Hr | ] ].
  intros d. rewrite hookRun_app.
  destruct (hookRun events (nav, h)) as [nav' h'] eqn:E.
  cbn [fst snd] in Hn, Hr. subst nav'.
  cbn [hookStep]. unfold useGeolocation, stopWatching. rewrite Hr.
  unfold startWatching. rewrite Hgeo. reflexivity.
Qed.

Lemma useGeolocation_unsupported_witness :
  let nav := {| geolocation := false; watches := []; nextWatchId := 1 |} in
  let h := {| watchIdRef := None; error := None |} in
  let events := [Effect (Num (Fin 12)) true; Cleanup] in
  fst (hookRun events (nav, h)) = nav
  /\ watchIdRef (snd (hookRun events (nav, h))) = None
  /\ forall d,
       error (snd (hookRun (events ++ [Effect d true]) (nav, h)))
       = Some "Geolocation is not supported by your browser."%string.
Proof.
  intros nav h events.
  apply (useGeolocation_unsupported events nav h); reflexivity.
Defined.

End Watch.

(** ** The notifications on display *)

Section Display.
Import JS ServiceWorker Lifecycle Notions.
Open Scope string_scope.

Lemma In_tags_filter (t t0 : string) (l : list Notification) :
  In t (map (fun n => tag (options n))
            (filter (fun n => negb (String.eqb (tag (options n)) t0)) l)) ->
  t <> t0 /\ In t (map (fun n => tag (options n)) l).
Proof.
  induction l as [ | n l IH]; cbn [filter map]; [ contradiction | ].
  destruct (String.eqb_spec (tag (options n)) t0) as [E | E]; cbn [negb].
  - intros H. destruct (IH H) as [Hne Hin]. split; [ exact Hne | now right ].
  - cbn [map]. intros [H | H].
    + subst t. split; [ exact E | now left ].
    + destruct (IH H) as [Hne Hin]. split; [ exact Hne | now right ].
Qed.

Lemma NoDup_tags_filter (t0 : string) (l : list Notification) :
  NoDup (map (fun n => tag (options n)) l) ->
  NoDup (map (fun n => tag (options n))
             (filter (fun n => negb (String.eqb (tag (options n)) t0)) l)).
Proof.
  induction l as [ | n l IH]; cbn [filter map]; intros H; [ constructor | ].
  inversion H as [ | x xs Hnotin Hrest]; subst.
  destruct (negb (String.eqb (tag (options n)) t0)); [ | now apply IH ].
  cbn [map]. constructor; [ | now apply IH ].
  intros Hin. apply In_tags_filter in Hin. now destruct Hin.
Qed.

Lemma tags_showNotification (t : string) (o : NotificationOptions) (w : Worker) :
  NoDup (tags w) ->
  NoDup (tags (showNotification t o w))
  /\ forall t', In t' (tags (showNotification t o w)) ->
                t' = tag o \/ In t' (tags w).
Proof.
  unfold tags, showNotification. cbn [notifications map options tag].
  intros H. split.
  - constructor; [ | now apply NoDup_tags_filter ].
    intros Hin. apply In_tags_filter in Hin. now destruct Hin.
  - intros t' [Hhead | Htail]; [ now left | right ].
    now apply In_tags_filter in Htail.
Qed.

Lemma fst_onNotificationClick (n : Notification) (clicked : string)
  (clients : list Client) (w : Worker) :
  fst (onNotificationClick n clicked clients w) =
  {| notifications :=
       filter (fun m => negb (String.eqb (tag (options m)) (tag (options n))))
              (notifications w);
     cachedRoute := cachedRoute w |}.
Proof.
  unfold onNotificationClick.
  now destruct (String.eqb clicked "dismiss"), (String.eqb clicked "snooze").
Qed.

Lemma onNotificationClick_closes (n : Notification) (clicked : string)
  (clients : list Client) (w : Worker) :
  ~ In (tag (options n)) (tags (fst (onNotificationClick n clicked clients w))).
Proof.
  rewrite fst_onNotificationClick. unfold tags. cbn [notifications].
  intros Hin. apply In_tags_filter in Hin. now destruct Hin.
Qed.

Lemma workerStep_tags (w : Worker) (e : WorkerEvent) :
  NoDup (tags w) /\ incl (tags w) ["destination-alarm"; "pre-alert"] ->
  NoDup (tags (workerStep w e))
  /\ incl (tags (workerStep w e)) ["destination-alarm"; "pre-alert"].
Proof.
  intros [Hnodup Hincl].
  destruct e as [now [payload | payload | payload | type] | n clicked clients];
    cbn [workerStep onMessage].
  - unfold showAlarmNotification.
    match goal with
    | |- context [showNotification ?t ?o w] =>
        destruct (tags_showNotification t o w Hnodup) as [Hn Hi]
    end.
    split; [ exact Hn | ].
    intros t' Hin. destruct (Hi t' Hin) as [E | Hold];
      [ rewrite E; now left | now apply Hincl ].
  - unfold showPreAlertNotification.
    match goal with
    | |- context [showNotification ?t ?o w] =>
        destruct (tags_showNotification t o w Hnodup) as [Hn Hi]
    end.
    split; [ exact Hn | ].
    intros t' Hin. destruct (Hi t' Hin) as [E | Hold];
      [ rewrite E; right; now left | now apply Hincl ].
  - now split.
  - now split.
  - rewrite fst_onNotificationClick. unfold tags. cbn [notifications].
    split; [ now apply NoDup_tags_filter | ].
    intros t' Hin. apply In_tags_filter in Hin. now apply Hincl.
Qed.

(** X14.  At most one alarm and one pre-alert are on display.  After any
    succession of messages and clicks, from a worker that displays nothing,
    no two notifications have the same tag, the tags are
    [destination-alarm] and [pre-alert] only, and so there are at most two
    notifications. *)
Theorem one_notification_per_tag (events : list WorkerEvent) :
  let w := workerRun events freshWorker in
  NoDup (tags w)
  /\ incl (tags w) ["destination-alarm"; "pre-alert"]
  /\ (List.length (notifications w) <= 2)%nat.
Proof.
  intros w.
  assert (Hinv : NoDup (tags w) /\ incl (tags w) ["destination-alarm"; "pre-alert"]).
  { subst w. unfold workerRun.
    assert (H0 : NoDup (tags freshWorker)
                 /\ incl (tags freshWorker) ["destination-alarm"; "pre-alert"])
      by (split; [ constructor | intros t [] ]).
    revert H0. generalize freshWorker.
    induction events as [ | e events IH]; intros w0 H0; [ exact H0 | ].
    cbn [fold_left]. apply IH. now apply workerStep_tags. }
  destruct Hinv as [Hnodup Hincl].
  split; [ exact Hnodup | split; [ exact Hincl | ] ].
  pose proof (NoDup_incl_length Hnodup Hincl) as Hlen.
  unfold tags in Hlen. rewrite length_map in Hlen. exact Hlen.
Qed.

Lemma filter_filter_same {A : Type} (f : A -> bool) (l : list A) :
  filter f (filter f l) = filter f l.
Proof.
  induction l as [ | x l IH]; [ reflexivity | ].
  cbn [filter]. destruct (f x) eqn:E; [ | exact IH ].
  cbn [filter]. now rewrite E, IH.
Qed.

Lemma showNotification_twice (t t' : string) (o o' : NotificationOptions)
  (w : Worker) :
  tag o = tag o' ->
  showNotification t' o' (showNotification t o w) = showNotification t' o' w.
Proof.
  intros Htag. unfold showNotification.
  cbn [notifications cachedRoute filter options tag].
  rewrite Htag, String.eqb_refl. cbn [negb]. now rewrite filter_filter_same.
Qed.

(** X15.  The later message wins.  A second alarm replaces the first on
    display, a second pre-alert the first, and a second route the first in
    the cache, as if the first had not been sent; to receive a message twice
    is to receive it once. *)
Theorem message_replaces_previous (now now' : Z) (w : Worker) :
  (forall p p' : AlarmPayload,
     onMessage now' (TRIGGER_ALARM p') (onMessage now (TRIGGER_ALARM p) w)
     = onMessage now' (TRIGGER_ALARM p') w)
  /\ (forall p p' : PreAlertPayload,
        onMessage now' (PRE_ALERT p') (onMessage now (PRE_ALERT p) w)
        = onMessage now' (PRE_ALERT p') w)
  /\ (forall r r' : string,
        onMessage now' (CACHE_ROUTE r') (onMessage now (CACHE_ROUTE r) w)
        = onMessage now' (CACHE_ROUTE r') w)
  /\ (forall m : Message,
        onMessage now m (onMessage now m w) = onMessage now m w).
Proof.
  assert (Halarm : forall (t t' : Z) (p p' : AlarmPayload),
             onMessage t' (TRIGGER_ALARM p') (onMessage t (TRIGGER_ALARM p) w)
             = onMessage t' (TRIGGER_ALARM p') w)
    by (intros; cbn [onMessage]; unfold showAlarmNotification;
        now apply showNotification_twice).
  assert (Hpre : forall (t t' : Z) (p p' : PreAlertPayload),
             onMessage t' (PRE_ALERT p') (onMessage t (PRE_ALERT p) w)
             = onMessage t' (PRE_ALERT p') w)
    by (intros; cbn [onMessage]; unfold showPreAlertNotification;
        now apply showNotification_twice).
  split; [ apply Halarm | ]. split; [ apply Hpre | ].
  split; [ reflexivity | ].
  intros [p | p | r | t]; [ apply Halarm | apply Hpre | reflexivity | reflexivity ].
Qed.

(** X16.  Each action the alarm offers is relayed.  A click on [dismiss] or
    on [snooze], the two actions of the alarm notification, closes the
    notification and posts a message to every window: [DISMISS_ALARM], or
    [SNOOZE_ALARM] for 120000 ms.  A click beside the actions posts nothing:
    it gives the focus to the first window, or opens one when there is
    none. *)
Theorem alarm_actions_relayed (now : Z) (payload : AlarmPayload) (w : Worker)
  (clients : list Client) :
  exists n rest,
    notifications (onMessage now (TRIGGER_ALARM payload) w) = n :: rest
    /\ map action (actions (options n)) = ["dismiss"; "snooze"]
    /\ (forall a, In a (actions (options n)) ->
          exists m,
            snd (onNotificationClick n (action a) clients
                   (onMessage now (TRIGGER_ALARM payload) w))
            = Posted clients m
            /\ (action a = "dismiss" -> m = DISMISS_ALARM)
            /\ (action a = "snooze" -> m = SNOOZE_ALARM 120000)
            /\ ~ In (tag (options n))
                    (tags (fst (onNotificationClick n (action a) clients
                                  (onMessage now (TRIGGER_ALARM payload) w)))))
    /\ snd (onNotificationClick n "" clients
              (onMessage now (TRIGGER_ALARM payload) w))
       = match clients with
         | c :: _ => Focused c
         | [] => Opened "/"
         end.
Proof.
  do 2 eexists. split; [ reflexivity | ].
  split; [ reflexivity | ].
  split; [ | reflexivity ].
  intros a Ha.
  cbn [actions options In] in Ha.
  destruct Ha as [Ha | [Ha | []]]; subst a; cbn [action];
    eexists; (split; [ reflexivity | ]);
    (split; [ intros; first [ reflexivity | discriminate ] | ]);
    (split; [ intros; first [ reflexivity | discriminate ] | ]);
    apply onNotificationClick_closes.
Qed.

End Display.

(** ** The cache of the service worker *)

Section Offline.
Import OfflineCache Notions.
Open Scope string_scope.

Lemma append_cancel (p a b : string) : p ++ a = p ++ b -> a = b.
Proof.
  induction p as [ | c p IH]; cbn [append]; intros H; [ exact H | ].
  injection H as H. now apply IH.
Qed.

Lemma prefix_append (p a : string) : String.prefix p (p ++ a) = true.
Proof.
  induction p as [ | c p IH]; cbn [append String.prefix]; [ now destruct a | ].
  destruct (ascii_dec c c) as [_ | Hne]; [ exact IH | now elim Hne ].
Qed.

Lemma cache_match_put_same (u : string) (r : Response) (c : Cache) :
  cache_match (cache_put u r c) u = Some r.
Proof.
  unfold cache_match, cache_put. cbn [find fst]. now rewrite String.eqb_refl.
Qed.

Lemma cache_match_put_other (u v : string) (r : Response) (c : Cache) :
  v <> u -> cache_match (cache_put v r c) u = cache_match c u.
Proof.
  intros Hne. unfold cache_match, cache_put. cbn [find fst].
  destruct (String.eqb_spec v u) as [E | _]; [ contradiction | ].
  f_equal. induction c as [ | [k x] c IH]; [ reflexivity | ].
  cbn [filter find fst].
  destruct (String.eqb_spec k v) as [Ekv | Ekv]; cbn [negb find fst].
  - subst k. destruct (String.eqb_spec v u) as [E | _]; [ contradiction | ].
    exact IH.
  - destruct (String.eqb k u); [ reflexivity | exact IH ].
Qed.

Lemma cache_match_In (c : Cache) (u : string) (r : Response) :
  cache_match c u = Some r -> In (u, r) c.
Proof.
  unfold cache_match. destruct (find _ c) as [[k x] | ] eqn:E; [ | discriminate ].
  cbn. intros H. injection H as H. subst x.
  apply find_some in E. destruct E as [Hin Hk]. cbn [fst] in Hk.
  apply String.eqb_eq in Hk. now subst k.
Qed.

Lemma In_cache_put (u v : string) (r x : Response) (c : Cache) :
  In (u, x) (cache_put v r c) -> (u = v /\ x = r) \/ In (u, x) c.
Proof.
  unfold cache_put. intros [H | H].
  - injection H as Hu Hx. left. now split.
  - right. apply filter_In in H. now destruct H.
Qed.

Lemma put_all_keys (entries : list (string * Response)) :
  forall (c : Cache) (u : string) (x : Response),
    In (u, x) (put_all entries c) ->
    In u (map fst entries) \/ In (u, x) c.
Proof.
  unfold put_all.
  induction entries as [ | [k r] entries IH]; intros c u x Hin; cbn [fold_left] in Hin;
    [ now right | ].
  apply IH in Hin. cbn [map fst]. destruct Hin as [Hin | Hin].
  - left. now right.
  - apply In_cache_put in Hin. cbn [fst snd] in Hin.
    destruct Hin as [[Hu _] | Hin]; [ left; now left | now right ].
Qed.

Lemma put_all_other (entries : list (string * Response)) :
  forall (c : Cache) (u : string),
    ~ In u (map fst entries) ->
    cache_match (put_all entries c) u = cache_match c u.
Proof.
  unfold put_all.
  induction entries as [ | [k r] entries IH]; intros c u Hnot; cbn [fold_left];
    [ reflexivity | ].
  cbn [map fst In] in Hnot. rewrite IH by tauto. cbn [fst snd].
  apply cache_match_put_other. tauto.
Qed.

Lemma put_all_match (entries : list (string * Response)) (u : string)
  (r : Response) :
  (forall x, In (u, x) entries -> x = r) ->
  In u (map fst entries) ->
  forall c : Cache, cache_match (put_all entries c) u = Some r.
Proof.
  unfold put_all.
  induction entries as [ | [k x] entries IH]; intros Hval Hin c; [ contradiction | ].
  cbn [fold_left fst snd].
  destruct (in_dec string_dec u (map fst entries)) as [Hlater | Hlast].
  - apply IH; [ | exact Hlater ]. intros y Hy. apply Hval. now right.
  - pose proof (put_all_other entries (cache_put k x c) u Hlast) as E.
    unfold put_all in E. rewrite E.
    cbn [map fst In] in Hin. destruct Hin as [Hk | Hin]; [ | contradiction ].
    subst k. rewrite (Hval x (or_introl eq_refl)). apply cache_match_put_same.
Qed.

Lemma fetch_all_entries (net : Network) :
  forall (urls : list string) (entries : list (string * Response)),
    fetch_all net urls = Some entries ->
    map fst entries = urls
    /\ forall u x, In (u, x) entries -> net u = Some x /\ ok x = true.
Proof.
  induction urls as [ | u urls IH]; intros entries H; cbn [fetch_all] in H.
  - injection H as H. subst entries. split; [ reflexivity | intros ? ? [] ].
  - destruct (net u) as [r | ] eqn:Hnet; [ | discriminate ].
    destruct (ok r) eqn:Hok; [ | discriminate ].
    destruct (fetch_all net urls) as [l | ] eqn:Hall; [ | discriminate ].
    injection H as H. subst entries.
    destruct (IH l eq_refl) as [Hkeys Hvals].
    split; [ cbn [map fst]; now rewrite Hkeys | ].
    intros v x [Hhead | Htail].
    + injection Hhead as Hv Hx. subst v x. now split.
    + now apply Hvals.
Qed.

(** Storage that holds the cache of the worker and no other. *)
Lemma caches_match_update (f : Cache -> Cache) (u : string) (r : Response) :
  (forall c, cache_match (f c) u = Some r) ->
  forall st : CacheStorage,
    st <> [] ->
    (forall name c, In (name, c) st -> name = CACHE_NAME) ->
    caches_match (update_cache CACHE_NAME f st) u = Some r.
Proof.
  intros Hf st Hne Hnames. destruct st as [ | [name c] st]; [ contradiction | ].
  cbn [update_cache map fst snd caches_match].
  rewrite (Hnames name c (or_introl eq_refl)), String.eqb_refl.
  now rewrite Hf.
Qed.

Lemma caches_open_names (st : CacheStorage) :
  caches_open CACHE_NAME st <> []
  /\ ((forall name c, In (name, c) st -> name = CACHE_NAME) ->
      forall name c, In (name, c) (caches_open CACHE_NAME st) ->
                     name = CACHE_NAME).
Proof.
  unfold caches_open.
  destruct (existsb (fun c => String.eqb (fst c) CACHE_NAME) st) eqn:E.
  - split; [ | tauto ].
    intros Hnil. subst st. discriminate E.
  - split; [ now destruct st | ].
    intros H name c Hin. apply in_app_or in Hin.
    destruct Hin as [Hin | [Hin | []]]; [ now apply (H name c) | ].
    now injection Hin as Hn _.
Qed.

Lemma onActivate_names (st : CacheStorage) :
  forall name c, In (name, c) (onActivate st) -> name = CACHE_NAME.
Proof.
  intros name c Hin. unfold onActivate in Hin.
  apply filter_In in Hin. destruct Hin as [_ H]. now apply String.eqb_eq in H.
Qed.

Lemma onActivate_update (f : Cache -> Cache) (st : CacheStorage) :
  onActivate (update_cache CACHE_NAME f st)
  = update_cache CACHE_NAME f (onActivate st).
Proof.
  unfold onActivate, update_cache.
  induction st as [ | [name c] st IH]; [ reflexivity | ].
  cbn [map filter fst snd].
  destruct (String.eqb name CACHE_NAME) eqn:E; cbn [fst filter map snd];
    rewrite E; [ now rewrite IH | exact IH ].
Qed.

Lemma onActivate_caches_open (st : CacheStorage) :
  onActivate (caches_open CACHE_NAME st) <> [].
Proof.
  unfold onActivate, caches_open.
  destruct (existsb (fun c => String.eqb (fst c) CACHE_NAME) st) eqn:E.
  - apply existsb_exists in E. destruct E as [c [Hin Hc]].
    intros Hnil.
    assert (Hf : In c (filter (fun c => String.eqb (fst c) CACHE_NAME) st))
      by (apply filter_In; now split).
    rewrite Hnil in Hf. contradiction.
  - rewrite filter_app. cbn [filter fst]. rewrite String.eqb_refl.
    intros Hnil. apply app_eq_nil in Hnil. now destruct Hnil.
Qed.

(** X17.  What was installed is served without the network.  When the
    installation could fetch every static asset, then, once the worker is
    activated, a GET for such an asset is answered with the response stored
    at the installation, whatever the network does by then, provided the
    address does not contain [/api/]. *)
Theorem static_assets_served_offline
  (origin : string) (net : Network) (st : CacheStorage) (path : string)
  (entries : list (string * Response)) :
  fetch_all net (map (append origin) STATIC_ASSETS) = Some entries ->
  In path STATIC_ASSETS ->
  includes "/api/" (origin ++ path) = false ->
  exists r,
    net (origin ++ path) = Some r
    /\ forall later : Network,
         onFetch origin later (onActivate (onInstall origin net st))
           {| method := "GET"; url := origin ++ path |}
         = Responded r.
Proof.
  intros Hall Hpath Hapi.
  destruct (fetch_all_entries net _ _ Hall) as [Hkeys Hvals].
  assert (Hin : In (origin ++ path) (map fst entries))
    by (rewrite Hkeys; now apply in_map).
  apply in_map_iff in Hin. destruct Hin as [[k r] [Hk Hin]]. cbn [fst] in Hk.
  subst k. exists r. split; [ now apply Hvals | ].
  intros later. unfold onFetch. cbn [method url String.eqb negb].
  rewrite prefix_append, Hapi. cbn [negb].
  unfold onInstall. rewrite Hall, onActivate_update.
  rewrite (caches_match_update (put_all entries) (origin ++ path) r);
    [ reflexivity | | apply onActivate_caches_open | apply onActivate_names ].
  apply put_all_match.
  - intros x Hx. destruct (Hvals _ _ Hx) as [Hnx _].
    destruct (Hvals _ _ Hin) as [Hnr _]. congruence.
  - rewrite Hkeys. now apply in_map.
Qed.

Lemma static_assets_served_offline_witness :
  exists r,
    (fun _ : string => Some {| status := 200; body := "asset" |})
      ("http://localhost:3000" ++ "/index.html") = Some r
    /\ forall later : Network,
         onFetch "http://localhost:3000" later
           (onActivate
              (onInstall "http://localhost:3000"
                 (fun _ => Some {| status := 200; body := "asset" |}) []))
           {| method := "GET"; url := "http://localhost:3000" ++ "/index.html" |}
         = Responded r.
Proof.
  apply (static_assets_served_offline "http://localhost:3000"
           (fun _ => Some {| status := 200; body := "asset" |}) []
           "/index.html"
           (map (fun p => ("http://localhost:3000" ++ p,
                           {| status := 200; body := "asset" |}))
                STATIC_ASSETS)).
  - reflexivity.
  - right. left. reflexivity.
  - reflexivity.
Defined.

(** The worker holds responses for the static assets and for the cached
    route only. *)
Lemma step_precached (origin : string) (st : CacheStorage) (e : Event) :
  (forall name c u x, In (name, c) st -> In (u, x) c -> precached origin u) ->
  forall name c u x,
    In (name, c) (step origin st e) -> In (u, x) c -> precached origin u.
Proof.
  intros Hst name c u x Hc Hu.
  assert (Hopen : forall name c u x,
             In (name, c) (caches_open CACHE_NAME st) -> In (u, x) c ->
             precached origin u).
  { intros n0 c0 u0 x0 Hin Hin'. unfold caches_open in Hin.
    destruct (existsb _ st); [ now apply (Hst n0 c0 u0 x0) | ].
    apply in_app_or in Hin. destruct Hin as [Hin | [Hin | []]];
      [ now apply (Hst n0 c0 u0 x0) | ].
    injection Hin as _ Hc0. subst c0. contradiction. }
  assert (Hupd : forall (f : Cache -> Cache) (st0 : CacheStorage),
             (forall name c u x, In (name, c) st0 -> In (u, x) c ->
                                 precached origin u) ->
             (forall c u x, In (u, x) (f c) ->
                            precached origin u \/ In (u, x) c) ->
             forall name c u x,
               In (name, c) (update_cache CACHE_NAME f st0) -> In (u, x) c ->
               precached origin u).
  { intros f st0 H0 Hf n0 c0 u0 x0 Hin Hin'. unfold update_cache in Hin.
    apply in_map_iff in Hin. destruct Hin as [[n1 c1] [E Hin]].
    cbn [fst snd] in E.
    destruct (String.eqb n1 CACHE_NAME).
    - injection E as _ Hc0. subst c0.
      destruct (Hf _ _ _ Hin') as [Hp | Hold]; [ exact Hp | ].
      now apply (H0 n1 c1 u0 x0).
    - injection E as Hn Hc0. subst n0 c0. now apply (H0 n1 c1 u0 x0). }
  destruct e as [net | | net request | routeData]; cbn [step] in Hc.
  - unfold onInstall in Hc.
    destruct (fetch_all net (map (append origin) STATIC_ASSETS)) as [entries | ]
      eqn:Hall; [ | now apply (Hopen name c u x) ].
    destruct (fetch_all_entries net _ _ Hall) as [Hkeys _].
    apply (Hupd (put_all entries) _ Hopen) with (name := name) (c := c) (x := x);
      [ | exact Hc | exact Hu ].
    intros c0 u0 x0 Hin. apply put_all_keys in Hin.
    destruct Hin as [Hin | Hin]; [ | now right ].
    left. left. now rewrite <- Hkeys.
  - unfold onActivate in Hc. apply filter_In in Hc.
    now apply (Hst name c u x).
  - now apply (Hst name c u x).
  - unfold cacheRouteData in Hc.
    apply (Hupd (cache_put (origin ++ "/cached-route")
                           {| status := 200; body := JSON_stringify routeData |})
                _ Hopen) with (name := name) (c := c) (x := x);
      [ | exact Hc | exact Hu ].
    intros c0 u0 x0 Hin. apply In_cache_put in Hin.
    destruct Hin as [[E _] | Hin]; [ | now right ].
    left. right. exact E.
Qed.

Lemma run_precached (origin : string) (events : list Event) :
  forall st : CacheStorage,
    (forall name c u x, In (name, c) st -> In (u, x) c -> precached origin u) ->
    forall name c u x,
      In (name, c) (run origin events st) -> In (u, x) c -> precached origin u.
Proof.
  unfold run. induction events as [ | e events IH]; intros st Hst;
    [ exact Hst | ].
  cbn [fold_left]. apply IH. now apply step_precached.
Qed.

Lemma caches_match_In (st : CacheStorage) (u : string) (r : Response) :
  caches_match st u = Some r -> exists name c, In (name, c) st /\ In (u, r) c.
Proof.
  induction st as [ | [name c] st IH]; cbn [caches_match]; [ discriminate | ].
  destruct (cache_match c u) as [x | ] eqn:E.
  - intros H. injection H as H. subst x. exists name, c.
    split; [ now left | now apply cache_match_In ].
  - intros H. destruct (IH H) as [n0 [c0 [Hin Hin']]].
    exists n0, c0. split; [ now right | exact Hin' ].
Qed.

(** X18.  No answer of the API is ever kept.  Whatever installations,
    activations, fetches and routes came before, from an empty storage, the
    caches hold the static assets and the cached route only; so a GET for
    an address of the API that is none of these is answered by the network
    when there is one, and fails when there is none: the fallback to the
    cache finds nothing. *)
Theorem api_requests_never_cached
  (origin : string) (events : list Event) (net : Network) (u : string) :
  includes "/api/" (origin ++ u) = true ->
  ~ precached origin (origin ++ u) ->
  onFetch origin net (run origin events [])
    {| method := "GET"; url := origin ++ u |}
  = match net (origin ++ u) with
    | Some r => Responded r
    | None => NetworkError
    end.
Proof.
  intros Hapi Hnot. unfold onFetch. cbn [method url String.eqb negb].
  rewrite prefix_append, Hapi. cbn [negb].
  destruct (net (origin ++ u)); [ reflexivity | ].
  destruct (caches_match (run origin events []) (origin ++ u)) as [r | ] eqn:E;
    [ | reflexivity ].
  exfalso. apply Hnot.
  destruct (caches_match_In _ _ _ E) as [name [c [Hc Hu]]].
  apply (run_precached origin events [] ltac:(intros ? ? ? ? [])
           name c (origin ++ u) r Hc Hu).
Qed.

Lemma api_requests_never_cached_witness :
  onFetch "http://localhost:3000" (fun _ => None)
    (run "http://localhost:3000"
       [Install (fun _ => Some {| status := 200; body := "asset" |});
        Activate; CacheRoute "route"] [])
    {| method := "GET"; url := "http://localhost:3000" ++ "/api/train/12661" |}
  = match (fun _ : string => @None Response)
            ("http://localhost:3000" ++ "/api/train/12661") with
    | Some r => Responded r
    | None => NetworkError
    end.
Proof.
  apply (api_requests_never_cached "http://localhost:3000"
           [Install (fun _ => Some {| status := 200; body := "asset" |});
            Activate; CacheRoute "route"]
           (fun _ => None) "/api/train/12661").
  - reflexivity.
  - intros [H | H].
    + cbn in H.
      repeat (destruct H as [H | H]; [ discriminate H | ]). contradiction.
    + discriminate H.
Defined.

Lemma step_names (origin : string) (st : CacheStorage) (e : Event) :
  (forall name c, In (name, c) st -> name = CACHE_NAME) ->
  forall name c, In (name, c) (step origin st e) -> name = CACHE_NAME.
Proof.
  intros Hst name c Hin.
  assert (Hupd : forall (f : Cache -> Cache) (st0 : CacheStorage),
             (forall name c, In (name, c) st0 -> name = CACHE_NAME) ->
             forall name c, In (name, c) (update_cache CACHE_NAME f st0) ->
                            name = CACHE_NAME).
  { intros f st0 H0 n0 c0 H. unfold update_cache in H.
    apply in_map_iff in H. destruct H as [[n1 c1] [E H]]. cbn [fst snd] in E.
    destruct (String.eqb n1 CACHE_NAME); injection E as Hn _; subst n0;
      now apply (H0 n1 c1). }
  pose proof (proj2 (caches_open_names st) Hst) as Hopen.
  destruct e as [net | | net request | routeData]; cbn [step] in Hin.
  - unfold onInstall in Hin.
    destruct (fetch_all net (map (append origin) STATIC_ASSETS));
      [ eapply Hupd; [ exact Hopen | exact Hin ] | now apply (Hopen name c) ].
  - now apply (onActivate_names st name c).
  - now apply (Hst name c).
  - unfold cacheRouteData in Hin. eapply Hupd; [ exact Hopen | exact Hin ].
Qed.

Lemma run_app (origin : string) (before after : list Event)
  (st : CacheStorage) :
  run origin (before ++ after) st = run origin after (run origin before st).
Proof. unfold run. apply fold_left_app. Qed.

Lemma run_names (origin : string) (events : list Event) :
  forall st : CacheStorage,
    (forall name c, In (name, c) st -> name = CACHE_NAME) ->
    forall name c, In (name, c) (run origin events st) -> name = CACHE_NAME.
Proof.
  unfold run. induction events as [ | e events IH]; intros st Hst;
    [ exact Hst | ].
  cbn [fold_left]. apply IH. now apply step_names.
Qed.

Lemma caches_open_present (st : CacheStorage) :
  st <> [] ->
  (forall name c, In (name, c) st -> name = CACHE_NAME) ->
  caches_open CACHE_NAME st = st.
Proof.
  intros Hne Hnames. unfold caches_open.
  destruct st as [ | [name c] st]; [ contradiction | ].
  cbn [existsb fst]. now rewrite (Hnames name c (or_introl eq_refl)), String.eqb_refl.
Qed.

Lemma update_cache_all (f : Cache -> Cache) (st : CacheStorage) :
  (forall name c, In (name, c) st -> name = CACHE_NAME) ->
  update_cache CACHE_NAME f st = map (fun c => (fst c, f (snd c))) st.
Proof.
  intros Hnames. unfold update_cache. apply map_ext_in.
  intros [name c] Hin. cbn [fst snd].
  now rewrite (Hnames name c Hin), String.eqb_refl.
Qed.

(** X19.  The route sent last can be read back without the network.  After
    a [CACHE_ROUTE] message, and through any later installations,
    activations and fetches, a GET for [/cached-route] is answered from
    the cache with the JSON text of that route ([JSON.stringify] of the
    payload: a string comes back between quotation marks), until another
    route is sent. *)
Theorem cached_route_read_back
  (origin : string) (before after : list Event) (routeData : string)
  (net : Network) :
  (forall e, In e after -> forall r, e <> CacheRoute r) ->
  includes "/api/" (origin ++ "/cached-route") = false ->
  onFetch origin net
    (run origin (before ++ CacheRoute routeData :: after) [])
    {| method := "GET"; url := origin ++ "/cached-route" |}
  = Responded {| status := 200; body := JSON_stringify routeData |}.
Proof.
  intros Hafter Hapi.
  set (key := origin ++ "/cached-route").
  set (resp := {| status := 200; body := JSON_stringify routeData |}).
  assert (Hinv : forall (events : list Event) (st : CacheStorage),
             (forall e, In e events -> forall r, e <> CacheRoute r) ->
             st <> [] ->
             (forall name c, In (name, c) st ->
                name = CACHE_NAME /\ cache_match c key = Some resp) ->
             let st' := run origin events st in
             st' <> []
             /\ forall name c, In (name, c) st' ->
                  name = CACHE_NAME /\ cache_match c key = Some resp).
  { unfold run. induction events as [ | e events IH]; intros st Hev Hne Hst;
      [ now split | ].
    cbn [fold_left].
    assert (Hnames : forall name c, In (name, c) st -> name = CACHE_NAME)
      by (intros n0 c0 H0; now destruct (Hst n0 c0 H0)).
    apply IH; [ intros e0 H0; apply Hev; now right | | ];
      destruct e as [net0 | | net0 request | r0]; cbn [step];
      try exact Hne; try exact Hst;
      try (exfalso; now apply (Hev (CacheRoute r0) (or_introl eq_refl) r0)).
    - unfold onInstall. rewrite (caches_open_present st Hne Hnames).
      destruct (fetch_all net0 (map (append origin) STATIC_ASSETS));
        [ | exact Hne ].
      rewrite update_cache_all by exact Hnames.
      destruct st; [ contradiction | discriminate ].
    - unfold onActivate. destruct st as [ | [n0 c0] st]; [ contradiction | ].
      cbn [filter fst].
      now rewrite (Hnames n0 c0 (or_introl eq_refl)), String.eqb_refl.
    - unfold onInstall. rewrite (caches_open_present st Hne Hnames).
      destruct (fetch_all net0 (map (append origin) STATIC_ASSETS))
        as [entries | ] eqn:Hall; [ | exact Hst ].
      rewrite update_cache_all by exact Hnames.
      intros n0 c0 Hin. apply in_map_iff in Hin.
      destruct Hin as [[n1 c1] [E Hin]]. cbn [fst snd] in E.
      injection E as Hn Hc. subst n0 c0.
      destruct (Hst n1 c1 Hin) as [Hname Hmatch].
      split; [ exact Hname | ].
      rewrite put_all_other; [ exact Hmatch | ].
      destruct (fetch_all_entries net0 _ _ Hall) as [Hkeys _].
      rewrite Hkeys. intros Hkey. apply in_map_iff in Hkey.
      destruct Hkey as [a [Ea Ha]]. apply append_cancel in Ea. subst a.
      cbn in Ha. repeat (destruct Ha as [Ha | Ha]; [ discriminate Ha | ]).
      contradiction.
    - intros n0 c0 Hin. unfold onActivate in Hin. apply filter_In in Hin.
      now apply Hst. }
  rewrite run_app.
  change (run origin (CacheRoute routeData :: after) (run origin before []))
    with (run origin after (cacheRouteData origin routeData (run origin before []))).
  set (st0 := run origin before []).
  assert (Hnames0 : forall name c, In (name, c) st0 -> name = CACHE_NAME)
    by (apply run_names; intros ? ? []).
  destruct (caches_open_names st0) as [Hne1 Hnames1].
  specialize (Hnames1 Hnames0).
  destruct (Hinv after (cacheRouteData origin routeData st0) Hafter)
    as [Hne Hst].
  - unfold cacheRouteData. rewrite update_cache_all by exact Hnames1.
    destruct (caches_open CACHE_NAME st0); [ contradiction | discriminate ].
  - unfold cacheRouteData. rewrite update_cache_all by exact Hnames1.
    intros n0 c0 Hin. apply in_map_iff in Hin.
    destruct Hin as [[n1 c1] [E Hin]]. cbn [fst snd] in E.
    injection E as Hn Hc. subst n0 c0.
    split; [ now apply (Hnames1 n1 c1) | apply cache_match_put_same ].
  - unfold onFetch. cbn [method url String.eqb negb].
    fold key. unfold key at 1 2. rewrite prefix_append, Hapi. cbn [negb].
    fold key.
    destruct (run origin after (cacheRouteData origin routeData st0))
      as [ | [n0 c0] st'] eqn:E; [ contradiction | ].
    cbn [caches_match].
    destruct (Hst n0 c0 (or_introl eq_refl)) as [_ Hmatch].
    now rewrite Hmatch.
Qed.

Lemma cached_route_read_back_witness :
  onFetch "http://localhost:3000" (fun _ => None)
    (run "http://localhost:3000"
       ([Install (fun _ => None)] ++ CacheRoute "route" :: [Activate]) [])
    {| method := "GET"; url := "http://localhost:3000" ++ "/cached-route" |}
  = Responded {| status := 200;
                 body := String "034" ("route" ++ String "034" EmptyString) |}.
Proof.
  apply (cached_route_read_back "http://localhost:3000"
           [Install (fun _ => None)] [Activate] "route" (fun _ => None)).
  - intros e [He | []] r. subst e. discriminate.
  - reflexivity.
Defined.

End Offline.

(** ** The answers of the bridge *)

Section BridgeAnswers.
Import JS Bridge Spec Notions.
Open Scope string_scope.

Lemma mapi_length {A B : Type} (f : A -> nat -> B) :
  forall (l : list A) (i : nat), List.length (mapi f i l) = List.length l.
Proof.
  induction l as [ | x l IH]; intros i; cbn [mapi List.length];
    [ reflexivity | now rewrite IH ].
Qed.

Lemma nth_error_mapi {A B : Type} (f : A -> nat -> B) :
  forall (l : list A) (i k : nat),
    nth_error (mapi f i l) k
    = option_map (fun x => f x (i + k)%nat) (nth_error l k).
Proof.
  induction l as [ | x l IH]; intros i k; cbn [mapi].
  - now destruct k.
  - destruct k as [ | k]; cbn [nth_error option_map].
    + now rewrite Nat.add_0_r.
    + rewrite IH. now replace (S i + k)%nat with (i + S k)%nat by lia.
Qed.

Lemma or_string_nonempty (s : option string) (d : string) :
  d <> EmptyString -> or_string s d <> EmptyString.
Proof.
  intros Hd. unfold or_string. destruct s as [[ | c s] | ]; try exact Hd.
  discriminate.
Qed.

Lemma number_or_null_sent (v : value) :
  sent_coordinate v (number_or_null (parseFloat v)).
Proof.
  destruct v as [ | | [r | | | ]]; cbn [parseFloat number_or_null sent_coordinate];
    try reflexivity.
  cbn [truthy]. unfold Reqb. destruct (Req_dec_T r 0); cbn [negb]; tauto.
Qed.

(** X20.  A well-formed answer for every record of the scraper.  For a
    train number of five digits and an answer of the scraper that is an
    object whose [events], when it has any, are stop objects with
    coordinates that are numbers, [null] or left out, the handler of
    index.js answers 200 with as many stations as the scraper gave stops,
    in the same order; station [i] carries the index [i], a name and a code
    that are not empty, and for each coordinate the number itself when it
    is finite and not zero and [null] otherwise: a stop without coordinates
    is no error.  (An answer that is no object, a stop that is [null] and
    a coordinate given as a string are not among the records.) *)
Theorem api_train_stations_wellformed
  (SCRAPER_URL now trainNo : string) (data : ScraperData) :
  five_decimal_digits trainNo ->
  exists res stations,
    answer_of (api_train SCRAPER_URL now trainNo) (Fulfilled data) = Some res
    /\ status res = 200%Z
    /\ field "success" (body res) = Some (JBool true)
    /\ stations_of res = Some stations
    /\ List.length stations
       = List.length (match events data with Some l => l | None => [] end)
    /\ forall (i : nat) (stop : Event),
         nth_error (match events data with Some l => l | None => [] end) i
         = Some stop ->
         exists j,
           nth_error stations i = Some j
           /\ field "index" j = Some (JNumber (INR i))
           /\ (exists s, field "name" j = Some (JString s) /\ s <> EmptyString)
           /\ (exists s, field "code" j = Some (JString s) /\ s <> EmptyString)
           /\ (exists c, field "latitude" j = Some c
                         /\ sent_coordinate (lat stop) c)
           /\ (exists c, field "longitude" j = Some c
                         /\ sent_coordinate (lon stop) c).
Proof.
  intros Hgood. apply test_five_digits_spec in Hgood.
  unfold api_train. rewrite Hgood. cbn [negb answer_of].
  do 2 eexists. split; [ reflexivity | ].
  split; [ reflexivity | ]. split; [ reflexivity | ].
  split; [ reflexivity | ]. split; [ apply mapi_length | ].
  intros i stop Hstop. rewrite nth_error_mapi, Hstop. cbn [option_map].
  eexists. split; [ reflexivity | ].
  split; [ reflexivity | ].
  split; [ eexists; split; [ reflexivity | now apply or_string_nonempty ] | ].
  split; [ eexists; split; [ reflexivity | now apply or_string_nonempty ] | ].
  split; eexists; (split; [ reflexivity | apply number_or_null_sent ]).
Qed.

Lemma api_train_stations_wellformed_witness :
  let data :=
    {| train_number := Some "12661"; train_name := None; last_update := None;
       events := Some [ {| station := Some "Chennai Egmore"; code := Some "MS";
                           arrival := None; departure := Some "20:10";
                           delay := None; lat := Num (Fin 13.0827);
                           lon := Null; type := None |} ] |} in
  exists res stations,
    answer_of (api_train "http://localhost:8000" "now" "12661") (Fulfilled data)
    = Some res
    /\ status res = 200%Z
    /\ field "success" (body res) = Some (JBool true)
    /\ stations_of res = Some stations
    /\ List.length stations
       = List.length (match events data with Some l => l | None => [] end)
    /\ forall (i : nat) (stop : Event),
         nth_error (match events data with Some l => l | None => [] end) i
         = Some stop ->
         exists j,
           nth_error stations i = Some j
           /\ field "index" j = Some (JNumber (INR i))
           /\ (exists s, field "name" j = Some (JString s) /\ s <> EmptyString)
           /\ (exists s, field "code" j = Some (JString s) /\ s <> EmptyString)
           /\ (exists c, field "latitude" j = Some c
                         /\ sent_coordinate (lat stop) c)
           /\ (exists c, field "longitude" j = Some c
                         /\ sent_coordinate (lon stop) c).
Proof.
  intros data.
  apply (api_train_stations_wellformed "http://localhost:8000" "now" "12661" data).
  apply test_five_digits_spec. reflexivity.
Defined.

(** X21.  A failed request never looks like a success.  When the request to
    the scraper is rejected the handler of index.js answers with
    [success: false] and an error message, under status 503 exactly when the
    connection was refused (with the hint to fall back), else 404 exactly
    when the scraper answered 404, else 500. *)
Theorem api_train_failure
  (SCRAPER_URL now trainNo : string) (e : RequestError) :
  five_decimal_digits trainNo ->
  exists res,
    answer_of (api_train SCRAPER_URL now trainNo) (Rejected e) = Some res
    /\ field "success" (body res) = Some (JBool false)
    /\ (exists msg, field "error" (body res) = Some (JString msg))
    /\ status res
       = (if ECONNREFUSED e then 503
          else match response_status e with
               | Some 404 => 404
               | _ => 500
               end)%Z
    /\ (field "fallback" (body res) = Some (JBool true)
        <-> ECONNREFUSED e = true).
Proof.
  intros Hgood. apply test_five_digits_spec in Hgood.
  unfold api_train. rewrite Hgood. cbn [negb answer_of].
  destruct (ECONNREFUSED e) eqn:Hrefused.
  - eexists. split; [ reflexivity | ].
    repeat split; try reflexivity. eexists; reflexivity.
  - assert (H404 : {response_status e = Some 404%Z}
                   + {response_status e <> Some 404%Z})
      by (decide equality; apply Z.eq_dec).
    destruct H404 as [E | E].
    + rewrite E. eexists. split; [ reflexivity | ].
      split; [ reflexivity | ]. split; [ eexists; reflexivity | ].
      split; [ reflexivity | ]. split; discriminate.
    + eexists. split; [ reflexivity | ].
      destruct (response_status e) as [[ | p | p] | ];
        try (split; [ reflexivity | split; [ eexists; reflexivity | ];
             split; [ reflexivity | split; discriminate ] ]).
      destruct (Pos.eq_dec p 404) as [Ep | Ep]; [ subst p; now elim E | ].
      assert (Hmatch : forall (A : Type) (a b : A),
                 match p with 404%positive => a | _ => b end = b).
      { intros A a b.
        do 9 (destruct p as [p | p | ]; try reflexivity). now elim Ep. }
      rewrite !Hmatch.
      split; [ reflexivity | split; [ eexists; reflexivity | ];
               split; [ reflexivity | split; discriminate ] ].
Qed.

Lemma api_train_failure_witness :
  let e := {| error_code := Some "ECONNREFUSED"; response_status := Some 404%Z;
              message := "connect ECONNREFUSED 127.0.0.1:8000" |} in
  exists res,
    answer_of (api_train "http://localhost:8000" "now" "12661") (Rejected e)
    = Some res
    /\ field "success" (body res) = Some (JBool false)
    /\ (exists msg, field "error" (body res) = Some (JString msg))
    /\ status res
       = (if ECONNREFUSED e then 503
          else match response_status e with
               | Some 404 => 404
               | _ => 500
               end)%Z
    /\ (field "fallback" (body res) = Some (JBool true)
        <-> ECONNREFUSED e = true).
Proof.
  intros e.
  apply (api_train_failure "http://localhost:8000" "now" "12661" e).
  apply test_five_digits_spec. reflexivity.
Defined.

End BridgeAnswers.

(** ** The three ways to the provider *)

Section Providers.
Import JS Bridge Spec Notions.
Open Scope string_scope.

(** X22.  One missing key, three answers.  When the scraper answers without
    [events], the handler of index.js answers 200 with an empty list of
    stations, the train router fails inside its own mapping and answers 500,
    and the controller answers 404. *)
Theorem missing_events_three_answers
  (SCRAPER_URL now trainNo : string) (data : ScraperData) :
  five_decimal_digits trainNo ->
  events data = None ->
  (exists res,
     answer_of (api_train SCRAPER_URL now trainNo) (Fulfilled data) = Some res
     /\ status res = 200%Z
     /\ field "success" (body res) = Some (JBool true)
     /\ stations_of res = Some [])
  /\ (exists res,
        answer_of (router_train trainNo) (Fulfilled data) = Some res
        /\ status res = 500%Z
        /\ stations_of res = None
        /\ field "error" (body res)
           = Some (JString "Failed to fetch train data."))
  /\ (exists res,
        answer_of (Controller.getLiveStatus trainNo) (Fulfilled data) = Some res
        /\ status res = 404%Z
        /\ field "route" (body res) = None).
Proof.
  intros Hgood Hnone. apply test_five_digits_spec in Hgood.
  unfold api_train, router_train, Controller.getLiveStatus.
  rewrite Hgood. cbn [negb answer_of].
  destruct data as [tn tname lu ev]. cbn [events] in Hnone. subst ev.
  split; [ | split ]; eexists; (split; [ reflexivity | ]);
    repeat split; reflexivity.
Qed.

Lemma missing_events_three_answers_witness :
  let data := {| train_number := Some "12661"; train_name := None;
                 last_update := None; events := None |} in
  (exists res,
     answer_of (api_train "http://localhost:8000" "now" "12661") (Fulfilled data)
     = Some res
     /\ status res = 200%Z
     /\ field "success" (body res) = Some (JBool true)
     /\ stations_of res = Some [])
  /\ (exists res,
        answer_of (router_train "12661") (Fulfilled data) = Some res
        /\ status res = 500%Z
        /\ stations_of res = None
        /\ field "error" (body res)
           = Some (JString "Failed to fetch train data."))
  /\ (exists res,
        answer_of (Controller.getLiveStatus "12661") (Fulfilled data) = Some res
        /\ status res = 404%Z
        /\ field "route" (body res) = None).
Proof.
  intros data.
  apply (missing_events_three_answers "http://localhost:8000" "now" "12661" data).
  - apply test_five_digits_spec. reflexivity.
  - reflexivity.
Defined.

(** X23.  Who asks the scraper.  The handler of index.js and the train
    router ask the scraper exactly for the train numbers of five digits, at
    the address that ends in the number; the controller checks nothing and
    asks for every string it is given. *)
Theorem scraper_asked_iff (SCRAPER_URL now trainNo : string) :
  ((exists url timeout answer,
      api_train SCRAPER_URL now trainNo = Upstream url timeout answer)
   <-> five_decimal_digits trainNo)
  /\ ((exists url timeout answer,
         router_train trainNo = Upstream url timeout answer)
      <-> five_decimal_digits trainNo)
  /\ (forall url timeout answer,
        api_train SCRAPER_URL now trainNo = Upstream url timeout answer ->
        url = SCRAPER_URL ++ "/train/" ++ trainNo /\ timeout = Some 15000%Z)
  /\ (forall url timeout answer,
        router_train trainNo = Upstream url timeout answer ->
        url = "http://localhost:8000/train/" ++ trainNo /\ timeout = None)
  /\ exists answer,
       Controller.getLiveStatus trainNo
       = Upstream ("http://localhost:8000/train/" ++ trainNo) None answer.
Proof.
  unfold api_train, router_train, Controller.getLiveStatus.
  destruct (test_five_digits trainNo) eqn:Htest; cbn [negb].
  - apply test_five_digits_spec in Htest.
    split; [ split; [ intros _; exact Htest | intros _; do 3 eexists; reflexivity ] | ].
    split; [ split; [ intros _; exact Htest | intros _; do 3 eexists; reflexivity ] | ].
    split; [ intros url t k H; injection H as <- <- _; split; reflexivity | ].
    split; [ intros url t k H; injection H as <- <- _; split; reflexivity | ].
    eexists; reflexivity.
  - assert (Hbad : ~ five_decimal_digits trainNo).
    { intros H. apply test_five_digits_spec in H. congruence. }
    split; [ split; [ intros [url [t [k H]]]; discriminate H
                    | intros H; now elim Hbad ] | ].
    split; [ split; [ intros [url [t [k H]]]; discriminate H
                    | intros H; now elim Hbad ] | ].
    split; [ intros url t k H; discriminate H | ].
    split; [ intros url t k H; discriminate H | ].
    eexists; reflexivity.
Qed.

(** X24.  The order of the guards of the RapidAPI server.  A train number
    that is not five digits is refused with 400 whether or not a key is
    configured; a train number of five digits without a key is refused with
    503; and RapidAPI is asked exactly when the number has five digits and
    the key is not empty, for the first day of the run of that train. *)
Theorem rapid_guard_order (RAPIDAPI_KEY now trainNo : string) :
  (~ five_decimal_digits trainNo ->
   exists res,
     RapidBridge.api_train RAPIDAPI_KEY now trainNo = RapidBridge.Reply res
     /\ status res = 400%Z
     /\ field "success" (body res) = Some (JBool false))
  /\ (five_decimal_digits trainNo -> RAPIDAPI_KEY = EmptyString ->
      exists res,
        RapidBridge.api_train RAPIDAPI_KEY now trainNo = RapidBridge.Reply res
        /\ status res = 503%Z
        /\ field "success" (body res) = Some (JBool false))
  /\ ((exists hostname path answer,
         RapidBridge.api_train RAPIDAPI_KEY now trainNo
         = RapidBridge.Request hostname path answer)
      <-> five_decimal_digits trainNo /\ RAPIDAPI_KEY <> EmptyString)
  /\ (forall hostname path answer,
        RapidBridge.api_train RAPIDAPI_KEY now trainNo
        = RapidBridge.Request hostname path answer ->
        hostname = "irctc-train-api.p.rapidapi.com"
        /\ path = "/api/v1/live-train-status?trainNo=" ++ trainNo ++ "&startDay=0").
Proof.
  unfold RapidBridge.api_train.
  destruct (test_five_digits trainNo) eqn:Htest; cbn [negb].
  - apply test_five_digits_spec in Htest.
    destruct (String.eqb RAPIDAPI_KEY "") eqn:Hkey.
    + apply String.eqb_eq in Hkey.
      split; [ intros Hbad; now elim Hbad | ].
      split; [ intros _ _; eexists; repeat split; reflexivity | ].
      split; [ | intros h p k H; discriminate H ].
      split; [ intros [h [p [k H]]]; discriminate H
             | intros [_ Hne]; now elim Hne ].
    + apply String.eqb_neq in Hkey.
      split; [ intros Hbad; now elim Hbad | ].
      split; [ intros _ He; now elim Hkey | ].
      split; [ | intros h p k H; injection H as <- <- _; split; reflexivity ].
      split; [ intros _; split; assumption
             | intros _; do 3 eexists; reflexivity ].
  - assert (Hbad : ~ five_decimal_digits trainNo).
    { intros H. apply test_five_digits_spec in H. congruence. }
    split; [ intros _; eexists; repeat split; reflexivity | ].
    split; [ intros H; now elim Hbad | ].
    split; [ | intros h p k H; discriminate H ].
    split; [ intros [h [p [k H]]]; discriminate H
           | intros [H _]; now elim Hbad ].
Qed.

(** X25.  What the RapidAPI server reads of an answer.  The status RapidAPI
    answered with is never looked at; the stations are taken from the first
    list that is present, so that an empty list under [data.stations] hides
    the stations under every other key and gives 404 together with the raw
    answer; and whenever the list taken is not empty the answer is 200 with
    one station for each stop. *)
Theorem rapid_answer_reading
  (RAPIDAPI_KEY now trainNo : string) :
  five_decimal_digits trainNo ->
  RAPIDAPI_KEY <> EmptyString ->
  (forall (s s' : Z) (payload : RapidBridge.Payload),
     rapid_answer_of (RapidBridge.api_train RAPIDAPI_KEY now trainNo)
                     (RapidBridge.Resolved s payload)
     = rapid_answer_of (RapidBridge.api_train RAPIDAPI_KEY now trainNo)
                       (RapidBridge.Resolved s' payload))
  /\ (forall (s : Z) (payload : RapidBridge.Payload) (inner : RapidBridge.Inner),
        RapidBridge.data payload = Some inner ->
        RapidBridge.inner_stations inner = Some [] ->
        exists res,
          rapid_answer_of (RapidBridge.api_train RAPIDAPI_KEY now trainNo)
                          (RapidBridge.Resolved s payload) = Some res
          /\ status res = 404%Z
          /\ field "success" (body res) = Some (JBool false)
          /\ field "raw" (body res) = Some (RapidBridge.raw payload))
  /\ (forall (s : Z) (payload : RapidBridge.Payload),
        RapidBridge.stops_of payload <> [] ->
        exists res stations,
          rapid_answer_of (RapidBridge.api_train RAPIDAPI_KEY now trainNo)
                          (RapidBridge.Resolved s payload) = Some res
          /\ status res = 200%Z
          /\ field "trainNumber" (body res) = Some (JString trainNo)
          /\ stations_of res = Some stations
          /\ List.length stations
             = List.length (RapidBridge.stops_of payload)).
Proof.
  intros Hgood Hkey. apply test_five_digits_spec in Hgood.
  apply String.eqb_neq in Hkey.
  unfold RapidBridge.api_train. rewrite Hgood, Hkey.
  cbn [negb rapid_answer_of].
  split; [ reflexivity | ]. split.
  - intros s payload inner Hdata Hinner.
    assert (Hstops : RapidBridge.stops_of payload = []).
    { unfold RapidBridge.stops_of. rewrite Hdata, Hinner. reflexivity. }
    rewrite Hstops. eexists. repeat split; reflexivity.
  - intros s payload Hstops.
    destruct (RapidBridge.stops_of payload) as [ | stop stops] eqn:E;
      [ now elim Hstops | ].
    do 2 eexists. split; [ reflexivity | ].
    split; [ reflexivity | ]. split; [ reflexivity | ].
    split; [ reflexivity | ]. apply mapi_length.
Qed.

Lemma rapid_answer_reading_witness :
  (forall (s s' : Z) (payload : RapidBridge.Payload),
     rapid_answer_of (RapidBridge.api_train "key" "now" "12661")
                     (RapidBridge.Resolved s payload)
     = rapid_answer_of (RapidBridge.api_train "key" "now" "12661")
                       (RapidBridge.Resolved s' payload))
  /\ (forall (s : Z) (payload : RapidBridge.Payload) (inner : RapidBridge.Inner),
        RapidBridge.data payload = Some inner ->
        RapidBridge.inner_stations inner = Some [] ->
        exists res,
          rapid_answer_of (RapidBridge.api_train "key" "now" "12661")
                          (RapidBridge.Resolved s payload) = Some res
          /\ status res = 404%Z
          /\ field "success" (body res) = Some (JBool false)
          /\ field "raw" (body res) = Some (RapidBridge.raw payload))
  /\ (forall (s : Z) (payload : RapidBridge.Payload),
        RapidBridge.stops_of payload <> [] ->
        exists res stations,
          rapid_answer_of (RapidBridge.api_train "key" "now" "12661")
                          (RapidBridge.Resolved s payload) = Some res
          /\ status res = 200%Z
          /\ field "trainNumber" (body res) = Some (JString "12661")
          /\ stations_of res = Some stations
          /\ List.length stations
             = List.length (RapidBridge.stops_of payload)).
Proof.
  apply (rapid_answer_reading "key" "now" "12661").
  - apply test_five_digits_spec. reflexivity.
  - discriminate.
Defined.

Lemma field_optional_skip (k k' : string) (s : option string)
  (rest : list (string * json)) :
  k' <> k ->
  field k (JObject (optional k' s ++ rest)) = field k (JObject rest).
Proof.
  intros Hne. apply String.eqb_neq in Hne.
  destruct s as [s | ]; cbn [optional app field find fst]; [ | reflexivity ].
  now rewrite Hne.
Qed.

(** X26.  The controller changes no coordinate.  For an answer of the
    scraper with [events] the controller answers 200 with one entry of
    [route] for each stop, in the same order, and hands each coordinate on
    as it came: a finite number, zero included, stays that number under
    [lat] and [lng], and a coordinate the scraper left out is left out. *)
Theorem getLiveStatus_route
  (trainNo : string) (data : ScraperData) (stops : list Event) :
  events data = Some stops ->
  exists res route,
    answer_of (Controller.getLiveStatus trainNo) (Fulfilled data) = Some res
    /\ status res = 200%Z
    /\ field "route" (body res) = Some (JArray route)
    /\ List.length route = List.length stops
    /\ forall (i : nat) (stop : Event),
         nth_error stops i = Some stop ->
         exists j,
           nth_error route i = Some j
           /\ (forall r, lat stop = Num (Fin r) ->
                         field "lat" j = Some (JNumber r))
           /\ (forall r, lon stop = Num (Fin r) ->
                         field "lng" j = Some (JNumber r))
           /\ (lat stop = Undefined -> field "lat" j = None)
           /\ (lon stop = Undefined -> field "lng" j = None).
Proof.
  intros Hev. unfold Controller.getLiveStatus. cbn [answer_of]. rewrite Hev.
  do 2 eexists. split; [ reflexivity | ]. split; [ reflexivity | ].
  split.
  { cbn [body]. rewrite !field_optional_skip by discriminate. reflexivity. }
  split; [ apply length_map | ].
  intros i stop Hstop. rewrite nth_error_map, Hstop. cbn [option_map].
  eexists. split; [ reflexivity | ].
  rewrite !field_optional_skip by discriminate.
  repeat split.
  - intros r Hr. rewrite Hr. reflexivity.
  - intros r Hr. rewrite Hr.
    destruct (lat stop) as [ | | [x | | | ]]; reflexivity.
  - intros Hu. rewrite Hu.
    destruct (lon stop) as [ | | [x | | | ]]; reflexivity.
  - intros Hu. rewrite Hu.
    destruct (lat stop) as [ | | [x | | | ]]; reflexivity.
Qed.

Lemma getLiveStatus_route_witness :
  let stops :=
    [ {| station := Some "Equator Halt"; code := Some "EQ"; arrival := None;
         departure := None; delay := None; lat := Num (Fin 0);
         lon := Undefined; type := None |} ] in
  let data := {| train_number := Some "12661"; train_name := None;
                 last_update := None; events := Some stops |} in
  exists res route,
    answer_of (Controller.getLiveStatus "12661") (Fulfilled data) = Some res
    /\ status res = 200%Z
    /\ field "route" (body res) = Some (JArray route)
    /\ List.length route = List.length stops
    /\ forall (i : nat) (stop : Event),
         nth_error stops i = Some stop ->
         exists j,
           nth_error route i = Some j
           /\ (forall r, lat stop = Num (Fin r) ->
                         field "lat" j = Some (JNumber r))
           /\ (forall r, lon stop = Num (Fin r) ->
                         field "lng" j = Some (JNumber r))
           /\ (lat stop = Undefined -> field "lat" j = None)
           /\ (lon stop = Undefined -> field "lng" j = None).
Proof.
  intros stops data.
  apply (getLiveStatus_route "12661" data stops). reflexivity.
Defined.

End Providers.
